(** * infrahub-exporter: metric store, dual publisher and discovery cache

    A shallow embedding of [infrahub_exporter/metrics_exporter.py] and
    [infrahub_exporter/service_discovery.py], together with the parts of
    [config.py] they read.  Python values are modelled by a JSON-like
    datatype, insertion-ordered dictionaries by association lists,
    exceptions by a small error monad, and the collaborators outside of
    the repository (the Infrahub client, the file system, the clock) by
    explicit environment records. *)

From Stdlib Require Import Ascii String.
From stdpp Require Import gmap strings list fin_maps pretty.

Set Warnings "-register-all,-clear-no-such-hyp".
Open Scope string_scope.
Open Scope Z_scope.

(** ** Python runtime values *)

(** A Python [float].  The code only tests floats for truthiness and
    prints them with [str]; a float is therefore carried as the answer
    to both questions. *)
Record pyfloat := PyFloat { float_is_zero : bool; float_text : string }.

(** Values exchanged with the backend: the result of decoding a JSON
    document, which is also what attribute values look like. *)
Inductive json :=
  | JNull
  | JBool (b : bool)
  | JInt (z : Z)
  | JFloat (f : pyfloat)
  | JStr (s : string)
  | JList (l : list json)
  | JDict (d : list (string * json)).

(** Exceptions the modelled code can raise by itself. *)
Inductive exn := TypeError | AttributeError | KeyError | FetchFailed.

Inductive result (A : Type) :=
  | Ok (a : A)
  | Raise (e : exn).
Arguments Ok {A} a.
Arguments Raise {A} e.

#[global] Instance result_ret : MRet result := fun A a => Ok a.
#[global] Instance result_bind : MBind result := fun A B f m =>
  match m with Ok a => f a | Raise e => Raise e end.
#[global] Instance result_fmap : FMap result := fun A B f m =>
  match m with Ok a => Ok (f a) | Raise e => Raise e end.

(** ** Insertion-ordered dictionaries

    A Python [dict] keeps its keys in insertion order; assigning to a
    key that is present replaces the value in place, assigning to a new
    key appends.  Lookups return the first binding, which is the only
    one in a dictionary built by [od_set]. *)
Module OrderedDict.
Section Ops.
Context {V : Type}.

Fixpoint od_get (k : string) (d : list (string * V)) : option V :=
  match d with
  | [] => None
  | (k', v) :: d' => if String.eqb k' k then Some v else od_get k d'
  end.

Definition od_mem (k : string) (d : list (string * V)) : bool :=
  match od_get k d with Some _ => true | None => false end.

Fixpoint od_set (k : string) (v : V) (d : list (string * V)) : list (string * V) :=
  match d with
  | [] => [(k, v)]
  | (k', v') :: d' =>
      if String.eqb k' k then (k, v) :: d' else (k', v') :: od_set k v d'
  end.

Definition od_keys (d : list (string * V)) : list string := map fst d.

(** [dict(pairs)] and dict comprehensions: later pairs win. *)
Definition od_of_pairs (ps : list (string * V)) : list (string * V) :=
  fold_left (fun d p => od_set p.1 p.2 d) ps [].
End Ops.
End OrderedDict.
Export OrderedDict.

(** ** Built-in operations on strings *)

(** [s.endswith("[]")] *)
Definition endswith_brackets (s : string) : bool :=
  String.eqb (String.substring (String.length s - 2)%nat 2%nat s) "[]".

(** [s[:-2]] *)
Definition drop_last2 (s : string) : string :=
  String.substring 0%nat (String.length s - 2)%nat s.

(** [s.split(sep)] for a one-character separator. *)
Fixpoint split_on (sep : Ascii.ascii) (s : string) : list string :=
  match s with
  | EmptyString => [EmptyString]
  | String c r =>
      if Ascii.eqb c sep then EmptyString :: split_on sep r
      else match split_on sep r with
           | h :: t => String c h :: t
           | [] => [String c EmptyString]
           end
  end.

(** [needle in hay] for two strings: substring test. *)
Fixpoint str_contains (needle hay : string) : bool :=
  String.prefix needle hay ||
  match hay with
  | EmptyString => false
  | String _ r => str_contains needle r
  end.

(** [sep.join(xs)] *)
Fixpoint join (sep : string) (xs : list string) : string :=
  match xs with
  | [] => ""
  | [x] => x
  | x :: rest => x ++ sep ++ join sep rest
  end.

(** Truthiness of a value, as used by [if x], [not x] and [x or y]. *)
Definition truthy (v : json) : bool :=
  match v with
  | JNull => false
  | JBool b => b
  | JInt z => negb (z =? 0)
  | JFloat f => negb (float_is_zero f)
  | JStr s => negb (String.eqb s "")
  | JList l => match l with [] => false | _ => true end
  | JDict d => match d with [] => false | _ => true end
  end.

(** Truthiness of an optional string ([None] and [""] are false). *)
Definition truthy_str (o : option string) : bool :=
  match o with
  | Some s => negb (String.eqb s "")
  | None => false
  end.

(** [isinstance(v, (str, int, float, bool))] *)
Definition is_scalar (v : json) : bool :=
  match v with
  | JStr _ | JInt _ | JFloat _ | JBool _ => true
  | _ => false
  end.

(** [v.get(key, default)]: only dictionaries have a [get] method. *)
Definition py_get (v : json) (key : string) (dflt : json) : result json :=
  match v with
  | JDict d => Ok (default dflt (od_get key d))
  | _ => Raise AttributeError
  end.

(** [for x in v]: the elements a [for] loop over [v] visits (a
    dictionary yields its keys, a string its characters, taken here
    byte by byte). *)
Definition py_iter (v : json) : result (list json) :=
  match v with
  | JList l => Ok l
  | JDict d => Ok (map (fun kv => JStr kv.1) d)
  | JStr s => Ok (map (fun c => JStr (String c EmptyString)) (String.list_ascii_of_string s))
  | _ => Raise TypeError
  end.

(** [part in v] for a string [part]. *)
Definition py_contains (part : string) (v : json) : result bool :=
  match v with
  | JDict d => Ok (od_mem part d)
  | JStr s => Ok (str_contains part s)
  | JList l =>
      Ok (existsb (fun x => match x with JStr s => String.eqb s part | _ => false end) l)
  | _ => Raise TypeError
  end.

(** [v[part]] for a string [part]. *)
Definition py_getitem (v : json) (part : string) : result json :=
  match v with
  | JDict d => match od_get part d with Some x => Ok x | None => Raise KeyError end
  | _ => Raise TypeError
  end.

(** ** Configuration (config.py) *)

Record MetricsKind := {
  kind : string;
  include : list string;
  filters : list (list (string * string));
}.

Record ServiceDiscoveryQuery := {
  file_path : string;
  target_field : string;
  refresh_interval_seconds : Z;
  label_mappings : list (string * string);
  port_field : option string;
  name : option string;
}.

(** [ServiceDiscoveryQuery.__init__]: the name is the file name up to
    its first dot. *)
Definition derive_name (fp : string) : string :=
  hd "" (split_on "."%char (List.last (split_on "/"%char fp) "")).

Definition make_query (fp tf : string) (refresh : Z)
    (lm : list (string * string)) (pf : option string) : ServiceDiscoveryQuery :=
  {| file_path := fp; target_field := tf; refresh_interval_seconds := refresh;
     label_mappings := lm; port_field := pf; name := Some (derive_name fp) |}.

Record SidecarSettings := {
  metrics_kind : list MetricsKind;
  infrahub_branch : string;
}.

Section Exporter.

(** Two library functions stay abstract: Python's [repr] of a list or of
    a dictionary, which is what [str] prints for a container, and
    [str.lower]. *)
Variable py_repr : json -> string.
Variable str_lower : string -> string.

Set Default Proof Using "Type".

(** [str(v)] *)
Definition py_str (v : json) : string :=
  match v with
  | JNull => "None"
  | JBool true => "True"
  | JBool false => "False"
  | JInt z => pretty z
  | JFloat f => float_text f
  | JStr s => s
  | JList _ | JDict _ => py_repr v
  end.

(** ** Target extractor (service_discovery.py, [_extract_field]) *)

(** One turn of the loop over [arr["edges"]]:
    [entry.get("node", {}).get("name", {}).get("value")]. *)
Definition edge_name_value (entry : json) : result (option string) :=
  n ← py_get entry "node" (JDict []);
  m ← py_get n "name" (JDict []);
  txt ← py_get m "value" JNull;
  mret (match txt with JNull => None | _ => Some (py_str txt) end).

(** One turn of the loop over a plain list. *)
Definition sequence_item_value (item : json) : option string :=
  if is_scalar item then Some (py_str item)
  else match item with
       | JDict d =>
           match od_get "value" d with
           | Some v => Some (py_str v)
           | None => None
           end
       | _ => None
       end.

(** [",".join(values) if values else None] *)
Definition join_values (values : list string) : option string :=
  match values with
  | [] => None
  | _ => Some (join "," values)
  end.

(** The branch taken for a part that ends with "[]"; it always returns. *)
Definition array_segment (arr_field : string) (current : json) : result (option string) :=
  arr ← py_get current arr_field JNull;
  values ← match arr with
            | JDict d =>
                if od_mem "edges" d then
                  edges ← py_getitem arr "edges";
                  entries ← py_iter edges;
                  omap id <$> mapM edge_name_value entries
                else Ok []
            | JList items => Ok (omap sequence_item_value items)
            | _ => Ok []
            end;
  mret (join_values values).

(** Standard nested access or GraphQL node unwrapping: [Ok (Some v)] is
    the new [current], [Ok None] is the [return None] of the last
    branch. *)
Definition plain_step (part : string) (current : json) : result (option json) :=
  match current with
  | JDict d =>
      match od_get part d with
      | Some v => Ok (Some v)
      | None =>
          match od_get "node" d with
          | Some n =>
              b ← py_contains part n;
              if b : bool then Some <$> py_getitem n part else Ok None
          | None => Ok None
          end
      end
  | _ => Ok None
  end.

(** Final extraction, after the last part. *)
Definition final_extraction (current : json) : option string :=
  match current with
  | JDict d =>
      match od_get "value" d with
      | Some v => Some (py_str v)
      | None => None
      end
  | _ => if is_scalar current then Some (py_str current) else None
  end.

(** The loop over the parts of a path. *)
Fixpoint walk (parts : list string) (current : json) : result (option string) :=
  match parts with
  | [] => Ok (final_extraction current)
  | part :: rest =>
      if endswith_brackets part then array_segment (drop_last2 part) current
      else
        match plain_step part current with
        | Raise e => Raise e
        | Ok None => Ok None
        | Ok (Some JNull) => Ok None
        | Ok (Some v) => walk rest v
        end
  end.

Definition _extract_field (node : json) (path_expr : string) : result (option string) :=
  walk (split_on "."%char path_expr) node.

(** ** Discovery cache (service_discovery.py) *)

(** A target group is the dictionary
    [{"targets": [addr], "labels": labels}]. *)
Record TargetGroup := {
  tg_targets : list string;
  tg_labels : list (string * json);
}.

(** The loop over [query.label_mappings.items()]. *)
Fixpoint map_labels (node : json) (mappings : list (string * string))
    (labels : list (string * json)) : result (list (string * json)) :=
  match mappings with
  | [] => Ok labels
  | (key, field_path) :: rest =>
      val ← _extract_field node field_path;
      map_labels node rest
        (match val with
         | Some s => od_set key (JStr s) labels
         | None => labels
         end)
  end.

(** The body of the loop over the edges of one kind: [Ok None] is
    [continue]. *)
Definition target_for_edge (query : ServiceDiscoveryQuery) (kind_name : string)
    (edge : json) : result (option TargetGroup) :=
  node ← py_get edge "node" (JDict []);
  addr ← _extract_field node (target_field query);
  if negb (truthy_str addr) then Ok None
  else
    addr ← (if truthy_str (port_field query) then
              port ← _extract_field node (default "" (port_field query));
              mret (if truthy_str port
                    then default "" addr ++ ":" ++ default "" port
                    else default "" addr)
            else Ok (default "" addr));
    labels ← map_labels node (label_mappings query) [];
    node_id ← py_get node "id" JNull;
    let labels := od_set "__meta_infrahub_id" node_id labels in
    let labels := od_set "__meta_infrahub_kind" (JStr kind_name) labels in
    mret (Some {| tg_targets := [addr]; tg_labels := labels |}).

(** The body of the loop over [raw.items()]. *)
Definition targets_for_kind (query : ServiceDiscoveryQuery)
    (item : string * json) : result (list TargetGroup) :=
  match item.2 with
  | JDict data_block =>
      match od_get "edges" data_block with
      | Some (JList edges) => omap id <$> mapM (target_for_edge query item.1) edges
      | _ => Ok []
      end
  | _ => Ok []
  end.

(** The collaborators of the discovery manager.  [read_text] is the
    outcome of resolving a query file against the working directory and
    reading it ([None]: the read raised); [execute_graphql] is the
    outcome of running a query text ([None]: the call raised). *)
Record DiscoveryEnv := {
  read_text : string -> option string;
  execute_graphql : string -> option (list (string * json));
}.

(** What a call did to the outside world. *)
Inductive event :=
  | ReadFile (path : string)
  | ExecuteQuery (content : string).

(** How many query executions a trace holds. *)
Definition executions (tr : list event) : nat :=
  length (List.filter (fun ev => match ev with ExecuteQuery _ => true | _ => false end) tr).

Definition transform (query : ServiceDiscoveryQuery)
    (resp : list (string * json)) : result (list TargetGroup) :=
  if od_mem "errors" resp then Ok []
  else
    match default (JDict resp) (od_get "data" resp) with
    | JDict raw => @List.concat _ <$> mapM (targets_for_kind query) raw
    | _ => Raise AttributeError
    end.

Definition _fetch_and_transform (env : DiscoveryEnv) (query : ServiceDiscoveryQuery)
    : list event * result (list TargetGroup) :=
  match read_text env (file_path query) with
  | None => ([ReadFile (file_path query)], Ok [])
  | Some content =>
      ([ReadFile (file_path query); ExecuteQuery content],
       match execute_graphql env content with
       | None => Ok []
       | Some resp => transform query resp
       end)
  end.

Record CachedTargets := {
  timestamp : Z;
  targets : list TargetGroup;
}.

(** The manager's cache and the events its calls produced so far. *)
Record Manager := {
  cache : gmap string CachedTargets;
  trace : list event;
}.

(** [get_targets], with the reading of the monotonic clock passed in as
    [now] (clock ticks; the refresh interval is in the same unit). *)
Definition get_targets (env : DiscoveryEnv) (query : ServiceDiscoveryQuery)
    (now : Z) (m : Manager) : Manager * result (list TargetGroup) :=
  if truthy_str (name query) then
    let key := default "" (name query) in
    let refresh :=
      let (events, fetched) := _fetch_and_transform env query in
      match fetched with
      | Ok tgs =>
          ({| cache := <[key := {| timestamp := now; targets := tgs |}]> (cache m);
              trace := trace m ++ events |}, Ok tgs)
      | Raise e => ({| cache := cache m; trace := trace m ++ events |}, Raise e)
      end in
    match cache m !! key with
    | Some cached =>
        if now - timestamp cached <? refresh_interval_seconds query
        then (m, Ok (targets cached))
        else refresh
    | None => refresh
    end
  else (m, Ok []).

(** ** Graph-node field resolver (metrics_exporter.py) *)

Record MetricEntry := {
  labels : gmap string string;
  value : Z;
}.

(** A peer node as the resolver sees it: the result of
    [get_human_friendly_id_as_string(include_kind=True)] and its [id]. *)
Record PeerNode := {
  peer_hfid : option string;
  peer_id : option string;
}.

(** What [getattr(itm, field, None)] can return, apart from [None].
    [Attribute v] is any object that is neither a [RelatedNode] nor a
    [RelationshipManager]; [v] is [getattr(attr, "value", None)].  For a
    single relationship [fetched] is the outcome of [attr.fetch()]
    followed by the lookup of the peer in the client's store; for a
    multiple relationship every peer comes with the outcome of looking
    it up in the store, or of fetching it when the store misses it. *)
Inductive FieldObject :=
  | Attribute (v : json)
  | RelatedNode (initialized : bool) (fetched : result (option PeerNode))
  | RelationshipManager (initialized : bool) (peers : list (result PeerNode)).

Record InfrahubNode := {
  node_id : option string;
  node_hfid : option string;
  node_fields : list (string * FieldObject);
}.

(** [str(x or "")] for an optional string [x]. *)
Definition str_or_empty (x : option string) : string :=
  if truthy_str x then default "" x else "".

(** [node.get_human_friendly_id_as_string(include_kind=True) or node.id] *)
Definition hfid_or_id (p : PeerNode) : option string :=
  if truthy_str (peer_hfid p) then peer_hfid p else peer_id p.

(** [",".join(peers)]: a [None] among the items is a type error. *)
Definition join_peers (names : list (option string)) : result string :=
  match mapM id names with
  | Some strs => Ok (join "," strs)
  | None => Raise TypeError
  end.

(** The value given to [labels[field]]. *)
Definition resolve_field (itm : InfrahubNode) (field : string) : result string :=
  match od_get field (node_fields itm) with
  | None => Ok ""
  | Some (RelatedNode initialized fetched) =>
      if initialized then
        peer ← fetched;
        mret (str_or_empty (match peer with
                            | Some p => hfid_or_id p
                            | None => None
                            end))
      else Ok ""
  | Some (RelationshipManager initialized peers) =>
      if initialized then
        nodes ← mapM id peers;
        val ← join_peers (map hfid_or_id nodes);
        mret (str_or_empty (Some val))
      else Ok ""
  | Some (Attribute v) => Ok (if truthy v then py_str v else "")
  end.

(** A field the resolver leaves unresolved: the node has no such
    attribute, or the relationship was not loaded by the query. *)
Definition unresolved (itm : InfrahubNode) (field : string) : bool :=
  match od_get field (node_fields itm) with
  | None => true
  | Some (RelatedNode initialized _) => negb initialized
  | Some (RelationshipManager initialized _) => negb initialized
  | Some (Attribute _) => false
  end.

(** The loop over [kp.include]. *)
Fixpoint fill_labels (itm : InfrahubNode) (fields : list string)
    (acc : gmap string string) : result (gmap string string) :=
  match fields with
  | [] => Ok acc
  | field :: rest =>
      val ← resolve_field itm field;
      fill_labels itm rest (<[field := val]> acc)
  end.

(** The body of the loop over the fetched items. *)
Definition entry_for_item (kp : MetricsKind) (itm : InfrahubNode) : result MetricEntry :=
  lbls ← fill_labels itm (include kp)
            (<["hfid" := str_or_empty (node_hfid itm)]>
               (<["id" := str_or_empty (node_id itm)]> ∅));
  mret {| labels := lbls; value := 1 |}.

(** ** Poller and metric store *)

Inductive FetchOutcome :=
  | Fetched (items : list InfrahubNode)
  | SchemaNotFoundError
  | FetchException.

(** [client.all(kind, include, branch)] and
    [client.filters(kind, include, branch, **filter_args)]. *)
Record InfrahubClient := {
  client_all : string -> list string -> string -> FetchOutcome;
  client_filters :
    string -> list string -> string -> list (string * string) -> FetchOutcome;
}.

(** [filter_args.update(f)] for every [f] of [kp.filters]. *)
Definition merge_filters (fs : list (list (string * string))) : list (string * string) :=
  fold_left (fun acc f => fold_left (fun a kv => od_set kv.1 kv.2 a) f acc) fs [].

(** The [try] block: the call it makes, and what [items] is when the
    block is left, either at its end or through one of the two
    handlers. *)
Definition fetch_outcome (client : InfrahubClient) (settings : SidecarSettings)
    (kp : MetricsKind) : FetchOutcome :=
  let filter_args := merge_filters (filters kp) in
  match filter_args with
  | _ :: _ =>
      client_filters client (kind kp) (include kp) (infrahub_branch settings) filter_args
  | [] => client_all client (kind kp) (include kp) (infrahub_branch settings)
  end.

Definition fetch_items (client : InfrahubClient) (settings : SidecarSettings)
    (kp : MetricsKind) : list InfrahubNode :=
  match fetch_outcome client settings kp with
  | Fetched items => items
  | SchemaNotFoundError => []
  | FetchException => []
  end.

Definition _fetch_and_store (client : InfrahubClient) (settings : SidecarSettings)
    (kp : MetricsKind) (store : list (string * list MetricEntry))
    : result (list (string * list MetricEntry)) :=
  entries ← mapM (entry_for_item kp) (fetch_items client settings kp);
  mret (od_set (kind kp) entries store).

(** One turn of [_poll_loop]: the tasks only meet at their last
    statement, the assignment to the store, so a cycle is the sequence
    of these assignments in the order in which the tasks finish.  A task
    that raises assigns nothing; [gather] lets the others go on. *)
Definition poll_cycle (client : InfrahubClient) (settings : SidecarSettings)
    (finish_order : list MetricsKind) (store : list (string * list MetricEntry))
    : list (string * list MetricEntry) :=
  fold_left
    (fun st kp =>
       match _fetch_and_store client settings kp st with
       | Ok st' => st'
       | Raise _ => st
       end)
    finish_order store.

(** ** Pull and push publishers *)

Record GaugeMetricFamily := {
  family_name : string;
  documentation : string;
  labelnames : list string;
  samples : list (list string * Z);
}.

Record Observation := {
  obs_value : Z;
  attributes : list (string * string);
}.

(** [["id", "hfid"] + kp.include] *)
Definition label_order (kp : MetricsKind) : list string :=
  "id" :: "hfid" :: include kp.

(** [entry.labels.get(label, "")] *)
Definition label_of (entry : MetricEntry) (label : string) : string :=
  default "" (labels entry !! label).

(** [next((k for k in self.settings.metrics.kind if k.kind == kind), None)] *)
Definition find_kind (settings : SidecarSettings) (k : string) : option MetricsKind :=
  List.find (fun kp => String.eqb (kind kp) k) (metrics_kind settings).

(** The body of the loop of [collect]: [None] is [continue]. *)
Definition collect_kind (settings : SidecarSettings)
    (item : string * list MetricEntry) : option GaugeMetricFamily :=
  match find_kind settings item.1 with
  | None => None
  | Some kp =>
      Some {| family_name := "infrahub_" ++ str_lower item.1 ++ "_info";
              documentation := "Info about Infrahub " ++ item.1;
              labelnames := label_order kp;
              samples :=
                map (fun entry => (map (label_of entry) (label_order kp), value entry))
                    item.2 |}
  end.

Definition collect (settings : SidecarSettings)
    (store : list (string * list MetricEntry)) : list GaugeMetricFamily :=
  omap (collect_kind settings) store.

(** [MetricMeter._otlp_callback]: [self.exporter._store[self.kp.kind]]
    raises when the kind has no entry in the store. *)
Definition _otlp_callback (kp : MetricsKind)
    (store : list (string * list MetricEntry)) : result (list Observation) :=
  match od_get (kind kp) store with
  | None => Raise KeyError
  | Some entries =>
      Ok (map (fun entry =>
                 {| obs_value := value entry;
                    attributes :=
                      od_of_pairs (map (fun label => (label, label_of entry label))
                                       (label_order kp)) |})
              entries)
  end.

(** The (label set, value) pairs a rendered family stands for: each
    sample's values paired with the family's label names, as the
    Prometheus client does when it builds a sample
    ([dict(zip(labelnames, values))]). *)
Definition family_pairs (fam : GaugeMetricFamily) : list (list (string * string) * Z) :=
  map (fun s => (od_of_pairs (zip (labelnames fam) s.1), s.2)) (samples fam).

Definition observation_pairs (obs : list Observation) : list (list (string * string) * Z) :=
  map (fun o => (attributes o, obs_value o)) obs.


(** ** HTTP handler of the discovery endpoints (main.py) *)

(** Whether a character occurs in a string. *)
Fixpoint has_char (c : ascii) (s : string) : bool :=
  match s with
  | EmptyString => false
  | String c' r => Ascii.eqb c' c || has_char c r
  end.

(** The response of a discovery endpoint: the list it carries, its
    status and the headers the handler sets itself. *)
Record JSONResponse := {
  content : list TargetGroup;
  status_code : Z;
  headers : list (string * string);
}.

(** [Server._handle_sd]; [sd_manager] is [None] when service discovery
    is not enabled.  The response is built inside the [try] block, and
    building it renders the target list at once; [renders] is the
    outcome of that rendering, which the web framework does with
    [json.dumps(content, allow_nan=False)] followed by an encoding to
    UTF-8: it is [false] when either of them raises (a float that is not
    a number or not finite, a string with a lone surrogate).  The
    manager has then already been updated by [get_targets]. *)
Definition _handle_sd (renders : list TargetGroup -> bool)
    (env : DiscoveryEnv) (sd_manager : option Manager)
    (query : ServiceDiscoveryQuery) (now : Z) : option Manager * JSONResponse :=
  match sd_manager with
  | Some m =>
      match get_targets env query now m with
      | (m', Ok tgs) =>
          if renders tgs then
            (Some m',
             {| content := tgs; status_code := 200;
                headers := [("X-Prometheus-Refresh-Interval-Seconds",
                             pretty (refresh_interval_seconds query))] |})
          else (Some m', {| content := []; status_code := 500; headers := [] |})
      | (m', Raise _) =>
          (Some m', {| content := []; status_code := 500; headers := [] |})
      end
  | None => (None, {| content := []; status_code := 404; headers := [] |})
  end.

(** ** The extractor as the specification words it

    These definitions follow the text of the specification, not the
    code; the theorems below compare them with [walk]. *)

(** A plain segment: the matching key of the current mapping, else the
    matching key of a nested "node" mapping, else missing. *)
Definition spec_plain_step (part : string) (current : json) : option json :=
  match current with
  | JDict d =>
      match od_get part d with
      | Some v => Some v
      | None =>
          match od_get "node" d with
          | Some (JDict n) => od_get part n
          | _ => None
          end
      end
  | _ => None
  end.

(** The terminal step. *)
Definition spec_terminal (current : json) : option string :=
  match current with
  | JDict d => py_str <$> od_get "value" d
  | JStr _ | JInt _ | JFloat _ | JBool _ => Some (py_str current)
  | _ => None
  end.

Fixpoint spec_walk (parts : list string) (current : json) : option string :=
  match parts with
  | [] => spec_terminal current
  | part :: rest =>
      match spec_plain_step part current with
      | None | Some JNull => None
      | Some v => spec_walk rest v
      end
  end.

(** Whether the code's node unwrapping can be applied to [current]: a
    "node" entry that is consulted has to be a mapping. *)
Definition node_entry_is_mapping (part : string) (current : json) : bool :=
  match current with
  | JDict d =>
      match od_get part d, od_get "node" d with
      | None, Some (JDict _) => true
      | None, Some _ => false
      | _, _ => true
      end
  | _ => true
  end.

(** The same condition along a whole walk. *)
Fixpoint node_entries_are_mappings (parts : list string) (current : json) : bool :=
  match parts with
  | [] => true
  | part :: rest =>
      node_entry_is_mapping part current &&
      match spec_plain_step part current with
      | Some v => node_entries_are_mappings rest v
      | None => true
      end
  end.

(** The leaf [node.name.value] of one edge of a connection. *)
Definition spec_edge_leaf (edge : json) : option string :=
  match edge with
  | JDict e =>
      match od_get "node" e with
      | Some (JDict n) =>
          match od_get "name" n with
          | Some (JDict m) =>
              match od_get "value" m with
              | Some JNull | None => None
              | Some v => Some (py_str v)
              end
          | _ => None
          end
      | _ => None
      end
  | _ => None
  end.

(** The strings an array segment finds in the field it names. *)
Definition spec_array_values (arr : option json) : list string :=
  match arr with
  | Some (JDict conn) =>
      match od_get "edges" conn with
      | Some (JList edges) => omap spec_edge_leaf edges
      | _ => []
      end
  | Some (JList items) => omap sequence_item_value items
  | _ => []
  end.

(** A plain sequence, in the words of the specification: each scalar
    element stringified, each mapping's [value] leaf stringified. *)
Definition spec_sequence_leaf (item : json) : option string :=
  match item with
  | JStr s => Some s
  | JInt z => Some (pretty z)
  | JFloat f => Some (float_text f)
  | JBool b => Some (if b then "True" else "False")
  | JDict m =>
      match od_get "value" m with
      | Some JNull => Some "None"
      | Some (JStr s) => Some s
      | Some (JInt z) => Some (pretty z)
      | Some (JFloat f) => Some (float_text f)
      | Some (JBool b) => Some (if b then "True" else "False")
      | Some (JList l) => Some (py_repr (JList l))
      | Some (JDict d) => Some (py_repr (JDict d))
      | None => None
      end
  | JNull | JList _ => None
  end.

(** The strings an array segment finds, with the leaves of a plain
    sequence taken by [spec_sequence_leaf]. *)
Definition spec_array_strings (arr : option json) : list string :=
  match arr with
  | Some (JDict conn) =>
      match od_get "edges" conn with
      | Some (JList edges) => omap spec_edge_leaf edges
      | _ => []
      end
  | Some (JList items) => omap spec_sequence_leaf items
  | _ => []
  end.

(** [edge] is one of the edges of the result set that the response
    holds under the top-level key [kind_name]. *)
Definition edge_of_kind (resp : list (string * json)) (kind_name : string)
    (edge : json) : Prop :=
  ∃ raw data_block edges,
    default (JDict resp) (od_get "data" resp) = JDict raw
    ∧ (kind_name, JDict data_block) ∈ raw
    ∧ od_get "edges" data_block = Some (JList edges)
    ∧ edge ∈ edges.

(** An edge is a mapping whose "node", when present, is a mapping whose
    "name", when present, is a mapping. *)
Definition edge_well_shaped (edge : json) : bool :=
  match edge with
  | JDict e =>
      match od_get "node" e with
      | None => true
      | Some (JDict n) =>
          match od_get "name" n with
          | None | Some (JDict _) => true
          | Some _ => false
          end
      | Some _ => false
      end
  | _ => false
  end.

(** A field that has an "edges" key holds a list of well-shaped edges
    under it. *)
Definition connection_well_shaped (arr : option json) : bool :=
  match arr with
  | Some (JDict conn) =>
      match od_get "edges" conn with
      | None => true
      | Some (JList edges) => forallb edge_well_shaped edges
      | Some _ => false
      end
  | _ => true
  end.

(** ** Sample configurations, documents and environments

    Concrete inputs on which the functions above are evaluated at the
    end of the file. *)

(** Instances of the two abstract library functions: containers do not
    occur where the samples are printed, and kind names are ASCII. *)
Definition sample_repr (v : json) : string := "<container>".

Definition ascii_lower (c : ascii) : ascii :=
  let n := nat_of_ascii c in
  if (65 <=? n)%nat && (n <=? 90)%nat then ascii_of_nat (n + 32) else c.

Fixpoint sample_lower (s : string) : string :=
  match s with
  | EmptyString => EmptyString
  | String c r => String (ascii_lower c) (sample_lower r)
  end.

Definition device_kind : MetricsKind :=
  {| kind := "Device"; include := ["name"; "site"]; filters := [] |}.

Definition device_by_role : MetricsKind :=
  {| kind := "Device"; include := ["role"]; filters := [[("role__value", "edge")]] |}.

Definition sample_settings : SidecarSettings :=
  {| metrics_kind := [device_kind]; infrahub_branch := "main" |}.

Definition duplicate_settings : SidecarSettings :=
  {| metrics_kind := [device_kind; device_by_role]; infrahub_branch := "main" |}.

(** The node of the specification's scenario: [name] is an attribute,
    the [site] relationship was not loaded. *)
Definition rtr1 : InfrahubNode :=
  {| node_id := Some "1"; node_hfid := Some "Device(name)";
     node_fields := [("name", Attribute (JStr "rtr1"));
                     ("site", RelatedNode false (Ok None))] |}.

Definition rtr1_entry : MetricEntry :=
  {| labels := <["site" := ""]> (<["name" := "rtr1"]>
                 (<["hfid" := "Device(name)"]> (<["id" := "1"]> ∅)));
     value := 1 |}.

Definition edge_entry : MetricEntry :=
  {| labels := <["role" := "edge"]> (<["hfid" := "Device(rtr2)"]> (<["id" := "2"]> ∅));
     value := 1 |}.

Definition sample_store : list (string * list MetricEntry) :=
  [("Device", [rtr1_entry])].

Definition failing_client : InfrahubClient :=
  {| client_all := fun _ _ _ => FetchException;
     client_filters := fun _ _ _ _ => FetchException |}.

Definition devices_query : ServiceDiscoveryQuery :=
  make_query "queries/devices.gql" "ip" 60
    [("__meta_infrahub_id", "name"); ("__meta_infrahub_kind", "name"); ("site", "site.name")]
    (Some "port").

(** The discovery scenario of the specification: a [Device] without
    port (and without [id]) and an [Interface] with port 22. *)
Definition sample_response : list (string * json) :=
  [("data", JDict
     [("Device", JDict [("edges", JList
         [JDict [("node", JDict [("ip", JDict [("value", JStr "10.0.0.1")]);
                                 ("name", JDict [("value", JStr "rtr1")])])]])]);
      ("Interface", JDict [("edges", JList
         [JDict [("node", JDict [("id", JStr "17");
                                 ("ip", JDict [("value", JStr "10.0.0.2")]);
                                 ("port", JDict [("value", JInt 22)])])]])])])].

Definition readable_env : DiscoveryEnv :=
  {| read_text := fun _ => Some "query { Device { edges { node { id } } } }";
     execute_graphql := fun _ => Some sample_response |}.

Definition unreadable_env : DiscoveryEnv :=
  {| read_text := fun _ => None;
     execute_graphql := fun _ => Some sample_response |}.

Definition fresh_manager : Manager := {| cache := ∅; trace := [] |}.

Definition device_target : TargetGroup :=
  {| tg_targets := ["10.0.0.1"];
     tg_labels := [("__meta_infrahub_id", JNull);
                   ("__meta_infrahub_kind", JStr "Device")] |}.

Definition interface_target : TargetGroup :=
  {| tg_targets := ["10.0.0.2:22"];
     tg_labels := [("__meta_infrahub_id", JStr "17");
                   ("__meta_infrahub_kind", JStr "Interface")] |}.

(** The connection of the specification's example, with two edges. *)
Definition two_edges : list (string * json) :=
  [("a", JDict [("edges", JList
      [JDict [("node", JDict [("name", JDict [("value", JStr "x")])])];
       JDict [("node", JDict [("name", JDict [("value", JStr "y")])])]])])].

(** A connection with one edge whose node has a null [name]. *)
Definition null_name_edge : list (string * json) :=
  [("a", JDict [("edges", JList [JDict [("node", JDict [("name", JNull)])]])])].

(** Two query files with the same base name, and a hidden one. *)
Definition devices_by_name_query : ServiceDiscoveryQuery :=
  make_query "other/devices.graphql" "name" 30 [] None.

Definition hidden_query : ServiceDiscoveryQuery :=
  make_query "queries/.devices.gql" "ip" 60 [] None.

Definition rejecting_env : DiscoveryEnv :=
  {| read_text := fun _ => Some "query { Device { edges { node { id } } } }";
     execute_graphql := fun _ => Some [("errors", JList [JStr "no such field"]);
                                       ("data", JNull)] |}.

(** A response whose [data] is null and which reports no error. *)
Definition broken_env : DiscoveryEnv :=
  {| read_text := fun _ => Some "query { Device { edges { node { id } } } }";
     execute_graphql := fun _ => Some [("data", JNull)] |}.

(** A device with a site, as an edge of a connection. *)
Definition sited_edge : json :=
  JDict [("node", JDict [("id", JStr "9");
                         ("ip", JDict [("value", JStr "10.0.0.9")]);
                         ("site", JDict [("node",
                            JDict [("name", JDict [("value", JStr "ams")])])])])].

Definition null_node_edge : json := JDict [("node", JNull)].

Definition site_query : ServiceDiscoveryQuery :=
  make_query "queries/sites.gql" "ip" 60
    [("site", "site.name"); ("rack", "rack.name")] None.

(** A client that returns [rtr1] and a node with a relationship whose
    fetch fails. *)
Definition rtr2 : InfrahubNode :=
  {| node_id := Some "2"; node_hfid := None;
     node_fields := [("name", Attribute (JStr "rtr2"));
                     ("site", RelatedNode true (Raise FetchFailed))] |}.

Definition one_item_client : InfrahubClient :=
  {| client_all := fun _ _ _ => Fetched [rtr1];
     client_filters := fun _ _ _ _ => Fetched [rtr1] |}.

Definition two_item_client : InfrahubClient :=
  {| client_all := fun _ _ _ => Fetched [rtr1; rtr2];
     client_filters := fun _ _ _ _ => Fetched [rtr1; rtr2] |}.

Definition interface_kind : MetricsKind :=
  {| kind := "Interface"; include := []; filters := [] |}.

Definition sited_node : json :=
  JDict [("id", JStr "9");
         ("ip", JDict [("value", JStr "10.0.0.9")]);
         ("site", JDict [("node", JDict [("name", JDict [("value", JStr "ams")])])])].

Definition sited_target : TargetGroup :=
  {| tg_targets := ["10.0.0.9"];
     tg_labels := [("site", JStr "ams");
                   ("__meta_infrahub_id", JStr "9");
                   ("__meta_infrahub_kind", JStr "Device")] |}.

Definition interface_edge : json :=
  JDict [("node", JDict [("id", JStr "17");
                         ("ip", JDict [("value", JStr "10.0.0.2")]);
                         ("port", JDict [("value", JInt 22)])])].

(** A response that has its result sets at the top level. *)
Definition bare_response : list (string * json) :=
  [("Device", JDict [("edges", JList [sited_edge])])].

Definition device_family : GaugeMetricFamily :=
  {| family_name := "infrahub_device_info";
     documentation := "Info about Infrahub Device";
     labelnames := ["id"; "hfid"; "name"; "site"];
     samples := [(["1"; "Device(name)"; "rtr1"; ""], 1)] |}.

Definition rtr1_observation : Observation :=
  {| obs_value := 1;
     attributes := [("id", "1"); ("hfid", "Device(name)"); ("name", "rtr1"); ("site", "")] |}.




Definition two_kind_store : list (string * list MetricEntry) :=
  [("Interface", []); ("Device", [])].

Definition refreshed_store : list (string * list MetricEntry) :=
  [("Interface", []); ("Device", [rtr1_entry])].

(** A second spec for [Device], with the included fields of the first
    and a filter of its own. *)
Definition device_with_filter : MetricsKind :=
  {| kind := "Device"; include := ["name"; "site"];
     filters := [[("status__value", "active")]] |}.

Definition filtered_settings : SidecarSettings :=
  {| metrics_kind := [device_kind; device_with_filter]; infrahub_branch := "main" |}.

(** A plain list of scalars, a null, a mapping with a [value] leaf and
    one without. *)
Definition mixed_list : list (string * json) :=
  [("tags", JList [JStr "a"; JInt 1; JNull; JDict [("value", JStr "v")];
                   JDict [("other", JStr "w")]; JBool true])].

(** * Properties *)

Open Scope list_scope.

(** ** Ordered dictionaries and the error monad *)

Lemma od_get_set_eq {V : Type} (k : string) (v : V) (d : list (string * V)) :
  od_get k (od_set k v d) = Some v.
Proof.
  induction d as [|[k' v'] d IH]; simpl.
  - by rewrite String.eqb_refl.
  - destruct (String.eqb k' k) eqn:E; simpl.
    + by rewrite String.eqb_refl.
    + by rewrite E.
Qed.

Lemma od_get_set_ne {V : Type} (k k' : string) (v : V) (d : list (string * V)) :
  k ≠ k' → od_get k' (od_set k v d) = od_get k' d.
Proof.
  intros Hne. induction d as [|[k0 v0] d IH]; simpl.
  - by destruct (String.eqb_spec k k').
  - destruct (String.eqb_spec k0 k) as [->|Hk]; simpl.
    + by destruct (String.eqb_spec k k').
    + by destruct (String.eqb_spec k0 k').
Qed.

Lemma od_get_elem_of {V : Type} (k : string) (v : V) (d : list (string * V)) :
  od_get k d = Some v → (k, v) ∈ d.
Proof.
  induction d as [|[k0 v0] d IH]; simpl; [done|].
  destruct (String.eqb_spec k0 k) as [->|Hk].
  - intros [= ->]. apply list_elem_of_here.
  - intros H. apply list_elem_of_further. by apply IH.
Qed.

Lemma mapM_Ok_inv {A B : Type} (f : A → result B) (l : list A) (ys : list B) :
  mapM f l = Ok ys → Forall2 (fun x y => f x = Ok y) l ys.
Proof.
  revert ys. induction l as [|x l IH]; intros ys; simpl.
  - intros [= <-]. constructor.
  - destruct (f x) as [y|e] eqn:Hx; simpl; [|done].
    destruct (mapM f l) as [k|e]; simpl; [|done].
    intros [= <-]. constructor; [done|by apply IH].
Qed.

Lemma mapM_Ok_intro {A B : Type} (f : A → result B) (g : A → B) (l : list A) :
  Forall (fun x => f x = Ok (g x)) l → mapM f l = Ok (map g l).
Proof.
  induction 1 as [|x l Hx _ IH]; simpl; [done|].
  by rewrite Hx; simpl; rewrite IH.
Qed.

(** ** Strings *)

Lemma split_on_nonempty (sep : ascii) (s : string) : split_on sep s ≠ [].
Proof.
  destruct s as [|c r]; simpl; [done|].
  destruct (Ascii.eqb c sep); [done|].
  by destruct (split_on sep r).
Qed.

Lemma split_on_app (sep : ascii) (p q : string) :
  split_on sep (p +:+ String sep q) = (split_on sep p ++ split_on sep q)%list.
Proof.
  induction p as [|c r IH]; simpl.
  - by rewrite Ascii.eqb_refl.
  - destruct (Ascii.eqb c sep); [by rewrite IH|].
    rewrite IH. pose proof (split_on_nonempty sep r) as Hne.
    by destruct (split_on sep r).
Qed.

Lemma substring_skip (s t : string) (n : nat) :
  String.substring (String.length s) n (s +:+ t) = String.substring 0 n t.
Proof. induction s as [|c r IH]; simpl; [done|apply IH]. Qed.

Lemma substring_take (s t : string) :
  String.substring 0 (String.length s) (s +:+ t) = s.
Proof.
  induction s as [|c r IH]; simpl; [by destruct t|by rewrite IH].
Qed.

Lemma length_append (s t : string) :
  String.length (s +:+ t) = (String.length s + String.length t)%nat.
Proof. induction s as [|c r IH]; simpl; [done|by rewrite IH]. Qed.

Lemma length_append_brackets (s : string) :
  (String.length (s +:+ "[]") - 2)%nat = String.length s.
Proof. rewrite length_append. simpl. lia. Qed.

Lemma endswith_brackets_app (s : string) : endswith_brackets (s +:+ "[]") = true.
Proof.
  unfold endswith_brackets. by rewrite length_append_brackets, substring_skip.
Qed.

Lemma drop_last2_app (s : string) : drop_last2 (s +:+ "[]") = s.
Proof.
  unfold drop_last2. by rewrite length_append_brackets, substring_take.
Qed.

Lemma append_assoc (s t u : string) : (s +:+ t) +:+ u = s +:+ (t +:+ u).
Proof.
  induction s as [|c r IH]; [done|].
  change (String c ((r +:+ t) +:+ u) = String c (r +:+ (t +:+ u))).
  by rewrite IH.
Qed.

Lemma endswith_brackets_long (s : string) :
  endswith_brackets s = true → (2 ≤ String.length s)%nat.
Proof.
  unfold endswith_brackets.
  destruct s as [|a [|b r]]; simpl; [done| |lia].
  destruct (Ascii.eqb_spec a "["%char); done.
Qed.

Lemma endswith_brackets_cons (c : ascii) (s : string) :
  endswith_brackets s = true → endswith_brackets (String c s) = true.
Proof.
  intros H. pose proof (endswith_brackets_long s H) as Hlen.
  unfold endswith_brackets in *.
  replace (String.length (String c s) - 2)%nat
    with (S (String.length s - 2)) by (simpl; lia).
  exact H.
Qed.

(** ** The target extractor *)

Lemma walk_array_terminal (parts more : list string) (current : json) :
  Exists (fun s => endswith_brackets s = true) parts →
  walk (parts ++ more) current = walk parts current.
Proof.
  intros H. revert current.
  induction H as [part rest Hp | part rest _ IH]; intros current; simpl.
  - by rewrite Hp.
  - destruct (endswith_brackets part); [done|].
    destruct (plain_step part current) as [[v|]|e]; try done.
    destruct v; try done; apply IH.
Qed.

Lemma split_has_array_segment (a : string) :
  Exists (fun s => endswith_brackets s = true) (split_on "."%char (a +:+ "[]")).
Proof.
  induction a as [|c r IH]; simpl.
  - by apply Exists_cons_hd.
  - destruct (Ascii.eqb c "."%char); [by apply Exists_cons_tl|].
    destruct (split_on "."%char (r +:+ "[]")) as [|h t]; [by inversion IH|].
    inversion IH as [? ? Hh | ? ? Ht]; subst.
    + apply Exists_cons_hd. by apply endswith_brackets_cons.
    + by apply Exists_cons_tl.
Qed.

Lemma extract_ignores_after_array (node : json) (p q : string) :
  Exists (fun s => endswith_brackets s = true) (split_on "."%char p) →
  _extract_field node (p +:+ String "."%char q) = _extract_field node p.
Proof.
  intros H. unfold _extract_field.
  rewrite split_on_app. by apply walk_array_terminal.
Qed.

(** C9: an array segment is terminal.  Whatever is written after a
    segment that ends with "[]" is ignored: for every document, every
    path prefix [a] and every remainder [b], extracting [a[].b] gives
    what extracting [a[]] gives, a raised exception included. *)
Theorem array_segment_is_terminal (node : json) (a b : string) :
  _extract_field node ((a +:+ "[]") +:+ "." +:+ b) =
  _extract_field node (a +:+ "[]").
Proof.
  apply (extract_ignores_after_array node (a +:+ "[]") b).
  apply split_has_array_segment.
Qed.

Lemma plain_step_spec (part : string) (current : json) :
  node_entry_is_mapping part current = true →
  plain_step part current = Ok (spec_plain_step part current).
Proof.
  destruct current as [| | | | |l|d]; simpl; try done.
  destruct (od_get part d) as [v|]; [done|].
  destruct (od_get "node" d) as [[| | | | |l|n]|]; simpl; try done.
  intros _. unfold od_mem.
  by destruct (od_get part n) as [x|]; simpl.
Qed.

Lemma final_extraction_spec (current : json) :
  final_extraction current = spec_terminal current.
Proof.
  destruct current as [| | | | |l|d]; simpl; try done.
Qed.

(** Plain segments, on documents whose consulted "node" entries are
    mappings: the code walks the document as the specification says. *)
Lemma walk_plain_spec (parts : list string) (current : json) :
  Forall (fun s => endswith_brackets s = false) parts →
  node_entries_are_mappings parts current = true →
  walk parts current = Ok (spec_walk parts current).
Proof.
  intros Hplain. revert current.
  induction Hplain as [|part rest Hp _ IH]; intros current; simpl.
  - intros _. by rewrite final_extraction_spec.
  - rewrite Hp. intros [Hn Hrest]%andb_prop.
    rewrite (plain_step_spec _ _ Hn).
    destruct (spec_plain_step part current) as [v|]; [|done].
    destruct v; try done; by apply IH.
Qed.

(** C7: the failing input.  A node whose single relationship has no
    peer ([{"site": {"node": null}}]) and the path [site.name]: the key
    is absent from the mapping under [site] and there is no "node"
    mapping to fall back on, so the walk of the specification ends with
    the missing marker.  The code consults the "node" entry without
    checking that it is a mapping, and the membership test on [None]
    raises. *)
Theorem extract_null_node_raises :
  spec_walk ["site"; "name"] (JDict [("site", JDict [("node", JNull)])]) = None
  ∧ _extract_field (JDict [("site", JDict [("node", JNull)])]) "site.name"
    = Raise TypeError.
Proof. split; reflexivity. Qed.

Lemma edge_name_value_spec (edge : json) :
  edge_well_shaped edge = true →
  edge_name_value edge = Ok (spec_edge_leaf edge).
Proof.
  destruct edge as [| | | | |l|e]; simpl; try done.
  unfold edge_name_value; simpl.
  destruct (od_get "node" e) as [[| | | | |l|n]|]; simpl; try done.
  destruct (od_get "name" n) as [[| | | | |l|m]|]; simpl; try done.
  destruct (od_get "value" m) as [v|]; simpl; [|done].
  by destruct v.
Qed.

Lemma omap_id_map {A B : Type} (f : A → option B) (l : list A) :
  omap id (map f l) = omap f l.
Proof.
  induction l as [|x l IH]; simpl; [done|].
  destruct (f x); [f_equal|]; exact IH.
Qed.

Arguments join_values : simpl never.

Lemma join_values_match (vs : list string) :
  join_values vs = match vs with [] => None | v :: vs' => Some (join "," (v :: vs')) end.
Proof. by destruct vs. Qed.

(** On a mapping, an array segment [name[]] looks up [name]; a
    connection, whose edges are mappings with a mapping (or nothing)
    under "node" and under "name", yields the [name.value] leaves of its
    edges' nodes; a plain list yields its scalar elements and the
    [value] leaves of its mappings; the strings found are joined with
    commas, and the result is missing when none is found. *)
Lemma array_segment_collects (doc : list (string * json)) (field : string)
    (rest : list string) :
  connection_well_shaped (od_get field doc) = true →
  walk ((field +:+ "[]") :: rest) (JDict doc) =
    Ok (match spec_array_values (od_get field doc) with
        | [] => None
        | v :: vs => Some (join "," (v :: vs))
        end).
Proof.
  intros Hshape. rewrite <- join_values_match.
  cbn [walk]. rewrite endswith_brackets_app, drop_last2_app.
  unfold array_segment, spec_array_values. simpl.
  destruct (od_get field doc) as [[| | | | |items|conn]|]; try reflexivity.
  unfold od_mem. simpl in Hshape |- *.
  destruct (od_get "edges" conn) as [edges|] eqn:Hedges; [|reflexivity].
  simpl. destruct edges as [| | | | |es|]; try done.
  simpl. rewrite (mapM_Ok_intro edge_name_value spec_edge_leaf).
  - simpl. by rewrite omap_id_map.
  - apply Forall_forall. intros e He. apply edge_name_value_spec.
    rewrite forallb_forall in Hshape. apply Hshape. by apply list_elem_of_In.
Qed.

(** C8: the failing input.  The field [a] is a connection, its only
    edge has a node, and the node's [name] is null.  No string is found,
    so the result should be the missing marker; but [.get("name", {})]
    only defaults an absent key, and [.get("value")] on [None] raises. *)
Theorem array_null_name_raises :
  spec_array_values (od_get "a" null_name_edge) = []
  ∧ _extract_field (JDict null_name_edge) "a[]" = Raise AttributeError.
Proof. split; reflexivity. Qed.

(** ** The discovery cache *)

(** Closes a goal whose target list is the empty list of an early
    return. *)
Ltac no_targets :=
  let H := fresh "H" in intros [= <-] H; by apply elem_of_nil in H.

Lemma Forall2_elem_of_r {A B : Type} (R : A → B → Prop) (l : list A) (k : list B) (y : B) :
  Forall2 R l k → y ∈ k → ∃ x, x ∈ l ∧ R x y.
Proof.
  induction 1 as [|x y' l k Hxy _ IH]; intros Hy.
  - by apply elem_of_nil in Hy.
  - apply elem_of_cons in Hy as [->|Hy].
    + exists x. split; [apply list_elem_of_here|done].
    + destruct (IH Hy) as (x' & Hx' & HR). exists x'.
      split; [by apply list_elem_of_further|done].
Qed.

Lemma target_for_edge_meta_labels (query : ServiceDiscoveryQuery)
    (kind_name : string) (edge : json) (tg : TargetGroup) :
  target_for_edge query kind_name edge = Ok (Some tg) →
  ∃ nd, py_get edge "node" (JDict []) = Ok (JDict nd)
        ∧ od_get "__meta_infrahub_id" (tg_labels tg) = Some (default JNull (od_get "id" nd))
        ∧ od_get "__meta_infrahub_kind" (tg_labels tg) = Some (JStr kind_name).
Proof.
  unfold target_for_edge.
  destruct (py_get edge "node" (JDict [])) as [node|e]; simpl; [|done].
  destruct (_extract_field node (target_field query)) as [addr|e]; simpl; [|done].
  destruct (negb (truthy_str addr)); [done|].
  match goal with |- context [mbind _ ?port] => destruct port as [addr'|e] end;
    simpl; [|done].
  destruct (map_labels node (label_mappings query) []) as [lbls|e]; simpl; [|done].
  destruct node as [| | | | |l|nd]; simpl; try done.
  intros [= <-]. exists nd. simpl. split; [done|]. split.
  - rewrite od_get_set_ne by done. apply od_get_set_eq.
  - apply od_get_set_eq.
Qed.

Lemma targets_for_kind_elem (query : ServiceDiscoveryQuery) (item : string * json)
    (tgs : list TargetGroup) (tg : TargetGroup) :
  targets_for_kind query item = Ok tgs → tg ∈ tgs →
  ∃ data_block edges edge,
    item.2 = JDict data_block
    ∧ od_get "edges" data_block = Some (JList edges)
    ∧ edge ∈ edges
    ∧ target_for_edge query item.1 edge = Ok (Some tg).
Proof.
  unfold targets_for_kind.
  destruct item.2 as [| | | | |l|blk]; try no_targets.
  destruct (od_get "edges" blk) as [[| | | | |edges|]|] eqn:Hedges; try no_targets.
  destruct (mapM (target_for_edge query item.1) edges) as [os|e] eqn:Hm; simpl; [|done].
  intros [= <-] Htg. apply list_elem_of_omap in Htg as (o & Ho & Hid).
  simpl in Hid. subst o.
  destruct (Forall2_elem_of_r _ _ _ _ (mapM_Ok_inv _ _ _ Hm) Ho) as (edge & Hedge & He).
  by exists blk, edges, edge.
Qed.

Lemma transform_elem (query : ServiceDiscoveryQuery) (resp : list (string * json))
    (tgs : list TargetGroup) (tg : TargetGroup) :
  transform query resp = Ok tgs → tg ∈ tgs →
  ∃ kind_name edge,
    edge_of_kind resp kind_name edge
    ∧ target_for_edge query kind_name edge = Ok (Some tg).
Proof.
  unfold transform, edge_of_kind.
  destruct (od_mem "errors" resp); [no_targets|].
  destruct (default (JDict resp) (od_get "data" resp)) as [| | | | |l|raw]; try done.
  destruct (mapM (targets_for_kind query) raw) as [tss|e] eqn:Hm; simpl; [|done].
  intros [= <-] Htg.
  apply list_elem_of_In, in_concat in Htg as (ts & Hts & Htg).
  apply list_elem_of_In in Hts, Htg.
  destruct (Forall2_elem_of_r _ _ _ _ (mapM_Ok_inv _ _ _ Hm) Hts)
    as ([kind_name block] & Hitem & Hkind).
  destruct (targets_for_kind_elem _ _ _ _ Hkind Htg)
    as (blk & edges & edge & Hblk & Hedges & Hedge & Htarget).
  simpl in Hblk, Htarget. subst block.
  exists kind_name, edge. split; [|done]. by exists raw, blk, edges.
Qed.

(** C10: every emitted target group comes from an edge of the response,
    and its two meta labels hold the injected values, whatever the
    configured label mappings are (they are assigned last, so a mapping
    with one of these keys is overwritten): [__meta_infrahub_kind] is
    the kind name under which the edge stands, and [__meta_infrahub_id]
    is the raw [id] of the edge's node, null when the node has no such
    key. *)
Theorem meta_labels_injected_last (env : DiscoveryEnv) (query : ServiceDiscoveryQuery)
    (tgs : list TargetGroup) (tg : TargetGroup) :
  (_fetch_and_transform env query).2 = Ok tgs →
  tg ∈ tgs →
  ∃ content resp kind_name edge nd,
    read_text env (file_path query) = Some content
    ∧ execute_graphql env content = Some resp
    ∧ edge_of_kind resp kind_name edge
    ∧ target_for_edge query kind_name edge = Ok (Some tg)
    ∧ py_get edge "node" (JDict []) = Ok (JDict nd)
    ∧ od_get "__meta_infrahub_id" (tg_labels tg) = Some (default JNull (od_get "id" nd))
    ∧ (od_get "id" nd = None → od_get "__meta_infrahub_id" (tg_labels tg) = Some JNull)
    ∧ od_get "__meta_infrahub_kind" (tg_labels tg) = Some (JStr kind_name).
Proof.
  unfold _fetch_and_transform. intros Hfetch Htg.
  destruct (read_text env (file_path query)) as [content|]; simpl in Hfetch;
    [|injection Hfetch as <-; by apply elem_of_nil in Htg].
  destruct (execute_graphql env content) as [resp|] eqn:Hexec;
    [|injection Hfetch as <-; by apply elem_of_nil in Htg].
  destruct (transform_elem _ _ _ _ Hfetch Htg) as (kind_name & edge & Hof & Hedge).
  destruct (target_for_edge_meta_labels _ _ _ _ Hedge) as (nd & Hnode & Hid & Hkind).
  exists content, resp, kind_name, edge, nd. repeat split; try done.
  intros Hnone. by rewrite Hid, Hnone.
Qed.

Lemma truthy_name (key : string) : key ≠ "" → truthy_str (Some key) = true.
Proof. intros H. simpl. by destruct (String.eqb_spec key ""). Qed.

(** A fresh entry is returned as it is: nothing is read, nothing is
    executed, nothing is written. *)
Lemma get_targets_hit (env : DiscoveryEnv) (query : ServiceDiscoveryQuery)
    (key : string) (now : Z) (m : Manager) (c : CachedTargets) :
  name query = Some key → key ≠ "" →
  cache m !! key = Some c →
  now - timestamp c < refresh_interval_seconds query →
  get_targets env query now m = (m, Ok (targets c)).
Proof.
  intros Hname Hkey Hc Hfresh. unfold get_targets.
  rewrite Hname, (truthy_name _ Hkey). simpl. rewrite Hc.
  by rewrite (proj2 (Z.ltb_lt _ _) Hfresh).
Qed.

(** Without a fresh entry the fetch runs once; when it returns, its
    result is stored under the reading of the clock. *)
Lemma get_targets_miss (env : DiscoveryEnv) (query : ServiceDiscoveryQuery)
    (key : string) (now : Z) (m : Manager) (tgs : list TargetGroup) :
  name query = Some key → key ≠ "" →
  (∀ c, cache m !! key = Some c → refresh_interval_seconds query ≤ now - timestamp c) →
  (_fetch_and_transform env query).2 = Ok tgs →
  get_targets env query now m =
    ({| cache := <[key := {| timestamp := now; targets := tgs |}]> (cache m);
        trace := trace m ++ (_fetch_and_transform env query).1 |}, Ok tgs).
Proof.
  intros Hname Hkey Hstale Hfetch. unfold get_targets.
  rewrite Hname, (truthy_name _ Hkey). simpl.
  destruct (_fetch_and_transform env query) as [events fetched].
  simpl in Hfetch. subst fetched. simpl.
  destruct (cache m !! key) as [c|] eqn:Hc; [|done].
  specialize (Hstale c eq_refl).
  by rewrite (proj2 (Z.ltb_ge _ _) Hstale).
Qed.

Lemma fetch_events_readable (env : DiscoveryEnv) (query : ServiceDiscoveryQuery)
    (content : string) :
  read_text env (file_path query) = Some content →
  (_fetch_and_transform env query).1
  = [ReadFile (file_path query); ExecuteQuery content].
Proof. intros H. unfold _fetch_and_transform. by rewrite H. Qed.

Lemma fetch_unreadable (env : DiscoveryEnv) (query : ServiceDiscoveryQuery) :
  read_text env (file_path query) = None →
  _fetch_and_transform env query = ([ReadFile (file_path query)], Ok []).
Proof. intros H. unfold _fetch_and_transform. by rewrite H. Qed.

Lemma executions_one_fetch (tr : list event) (path content : string) :
  executions (tr ++ [ReadFile path; ExecuteQuery content]) = S (executions tr).
Proof.
  unfold executions. rewrite List.filter_app, length_app. simpl. lia.
Qed.

(** C6, as amended: a query with a non-empty name and no fresh cache
    entry, whose file is readable and whose fetch returns.  The first
    call executes the query once; a second call less than the refresh
    interval later returns the cached targets and touches neither the
    file nor the backend, whatever they have become; a third call at or
    after expiry executes the query once more and overwrites the entry
    with its own clock reading and result. *)
Theorem ttl_window_single_execution
    (env1 env2 env3 : DiscoveryEnv) (query : ServiceDiscoveryQuery) (key : string)
    (t1 t2 t3 : Z) (m0 : Manager) (content1 content3 : string)
    (tgs1 tgs3 : list TargetGroup) :
  name query = Some key → key ≠ "" →
  (∀ c, cache m0 !! key = Some c → refresh_interval_seconds query ≤ t1 - timestamp c) →
  read_text env1 (file_path query) = Some content1 →
  (_fetch_and_transform env1 query).2 = Ok tgs1 →
  t2 - t1 < refresh_interval_seconds query →
  refresh_interval_seconds query ≤ t3 - t1 →
  read_text env3 (file_path query) = Some content3 →
  (_fetch_and_transform env3 query).2 = Ok tgs3 →
  let call1 := get_targets env1 query t1 m0 in
  let call2 := get_targets env2 query t2 call1.1 in
  let call3 := get_targets env3 query t3 call2.1 in
  call1.2 = Ok tgs1
  ∧ call2.2 = Ok tgs1
  ∧ trace call2.1 = trace m0 ++ [ReadFile (file_path query); ExecuteQuery content1]
  ∧ executions (trace call2.1) = S (executions (trace m0))
  ∧ call3.2 = Ok tgs3
  ∧ trace call3.1 = trace call2.1 ++ [ReadFile (file_path query); ExecuteQuery content3]
  ∧ executions (trace call3.1) = S (executions (trace call2.1))
  ∧ cache call3.1 !! key = Some {| timestamp := t3; targets := tgs3 |}.
Proof.
  intros Hname Hkey Hstale Hread1 Hfetch1 Hwithin Hexpired Hread3 Hfetch3.
  intros call1 call2 call3.
  assert (call1 =
    ({| cache := <[key := {| timestamp := t1; targets := tgs1 |}]> (cache m0);
        trace := trace m0 ++ [ReadFile (file_path query); ExecuteQuery content1] |},
     Ok tgs1)) as H1.
  { unfold call1. rewrite (get_targets_miss _ _ key _ _ tgs1) by done.
    by rewrite (fetch_events_readable _ _ _ Hread1). }
  assert (call2 = (call1.1, Ok tgs1)) as H2.
  { unfold call2. rewrite H1. simpl.
    apply (get_targets_hit _ _ key _ _ {| timestamp := t1; targets := tgs1 |});
      try done.
    simpl. apply lookup_insert_eq. }
  assert (call3 =
    ({| cache := <[key := {| timestamp := t3; targets := tgs3 |}]> (cache call2.1);
        trace := trace call2.1 ++ [ReadFile (file_path query); ExecuteQuery content3] |},
     Ok tgs3)) as H3.
  { unfold call3. rewrite (get_targets_miss _ _ key _ _ tgs3); try done.
    - by rewrite (fetch_events_readable _ _ _ Hread3).
    - rewrite H2, H1. simpl. intros c. rewrite lookup_insert_eq.
      by intros [= <-]. }
  rewrite H3, H2, H1. simpl. repeat split; try done.
  - apply executions_one_fetch.
  - apply executions_one_fetch.
  - apply lookup_insert_eq.
Qed.

(** C2, as amended: when the query file cannot be read, a call that
    finds no fresh entry returns the empty list and stores it under the
    reading of the clock, as it does for any other result; until that
    entry expires the next calls return the empty list from the cache
    and do not try the file again. *)
Theorem unreadable_file_result_is_cached
    (env : DiscoveryEnv) (query : ServiceDiscoveryQuery) (key : string)
    (now : Z) (m : Manager) :
  name query = Some key → key ≠ "" →
  read_text env (file_path query) = None →
  (∀ c, cache m !! key = Some c → refresh_interval_seconds query ≤ now - timestamp c) →
  let m' := (get_targets env query now m).1 in
  (get_targets env query now m).2 = Ok []
  ∧ cache m' !! key = Some {| timestamp := now; targets := [] |}
  ∧ trace m' = trace m ++ [ReadFile (file_path query)]
  ∧ ∀ env' now', now' - now < refresh_interval_seconds query →
      get_targets env' query now' m' = (m', Ok []).
Proof.
  intros Hname Hkey Hread Hstale m'.
  pose proof (fetch_unreadable _ _ Hread) as Hfetch.
  assert (get_targets env query now m =
    ({| cache := <[key := {| timestamp := now; targets := [] |}]> (cache m);
        trace := trace m ++ [ReadFile (file_path query)] |}, Ok [])) as Hcall.
  { rewrite (get_targets_miss _ _ key _ _ []); try done.
    - by rewrite Hfetch.
    - by rewrite Hfetch. }
  unfold m'. rewrite Hcall. simpl. repeat split; try done.
  - apply lookup_insert_eq.
  - intros env' now' Hwithin.
    apply (get_targets_hit _ _ key _ _ {| timestamp := now; targets := [] |});
      try done.
    simpl. apply lookup_insert_eq.
Qed.

(** ** The graph-node field resolver *)

Lemma fill_labels_dom (itm : InfrahubNode) (fields : list string)
    (acc m : gmap string string) :
  fill_labels itm fields acc = Ok m → dom m = dom acc ∪ list_to_set fields.
Proof.
  clear str_lower.
  revert acc. induction fields as [|f rest IH]; intros acc; simpl.
  - intros [= <-]. set_solver.
  - destruct (resolve_field itm f) as [v|e]; simpl; [|done].
    intros H. rewrite (IH _ H), dom_insert_L. set_solver.
Qed.

Lemma fill_labels_other (itm : InfrahubNode) (fields : list string)
    (acc m : gmap string string) (k : string) :
  fill_labels itm fields acc = Ok m → k ∉ fields → m !! k = acc !! k.
Proof.
  revert acc. induction fields as [|f rest IH]; intros acc; simpl.
  - by intros [= <-].
  - destruct (resolve_field itm f) as [v|e]; simpl; [|done].
    intros H Hk. apply not_elem_of_cons in Hk as [Hne Hk].
    rewrite (IH _ H Hk). by apply lookup_insert_ne.
Qed.

Lemma fill_labels_lookup (itm : InfrahubNode) (fields : list string)
    (acc m : gmap string string) (f : string) :
  fill_labels itm fields acc = Ok m → f ∈ fields →
  ∃ v, resolve_field itm f = Ok v ∧ m !! f = Some v.
Proof.
  revert acc. induction fields as [|f0 rest IH]; intros acc; simpl.
  - intros _ H. by apply elem_of_nil in H.
  - destruct (resolve_field itm f0) as [v0|e] eqn:Hres; simpl; [|done].
    intros H Hf. destruct (decide (f ∈ rest)) as [Hin|Hout].
    + by apply (IH _ H).
    + apply elem_of_cons in Hf as [->|Hf]; [|done].
      exists v0. split; [done|].
      rewrite (fill_labels_other _ _ _ _ _ H Hout). apply lookup_insert_eq.
Qed.

Lemma fill_labels_returns (itm : InfrahubNode) (fields : list string)
    (acc : gmap string string) :
  Forall (fun f => ∃ v, resolve_field itm f = Ok v) fields →
  ∃ m, fill_labels itm fields acc = Ok m.
Proof.
  intros H. revert acc. induction H as [|f rest [v Hv] _ IH]; intros acc; simpl.
  - by exists acc.
  - rewrite Hv. simpl. apply IH.
Qed.

(** Every fetched item whose relationships resolve without an exception
    yields an entry. *)
Lemma entry_for_item_returns (kp : MetricsKind) (itm : InfrahubNode) :
  Forall (fun f => ∃ v, resolve_field itm f = Ok v) (include kp) →
  ∃ e, entry_for_item kp itm = Ok e.
Proof.
  intros H. unfold entry_for_item.
  destruct (fill_labels_returns itm (include kp)
              (<["hfid" := str_or_empty (node_hfid itm)]>
                 (<["id" := str_or_empty (node_id itm)]> ∅)) H) as [m Hm].
  rewrite Hm. simpl. by eexists.
Qed.

Lemma entry_for_item_lookup (kp : MetricsKind) (itm : InfrahubNode) (e : MetricEntry)
    (field : string) :
  entry_for_item kp itm = Ok e → field ∈ include kp →
  ∃ s, resolve_field itm field = Ok s ∧ labels e !! field = Some s.
Proof.
  unfold entry_for_item.
  destruct (fill_labels itm (include kp) _) as [m|err] eqn:Hfill; simpl; [|done].
  intros [= <-] Hin. simpl. by apply (fill_labels_lookup _ _ _ _ _ Hfill).
Qed.

Lemma resolve_unresolved (itm : InfrahubNode) (field : string) :
  unresolved itm field = true → resolve_field itm field = Ok "".
Proof.
  unfold unresolved, resolve_field.
  destruct (od_get field (node_fields itm)) as [[v|i f|i ps]|]; try done.
  - by destruct i.
  - by destruct i.
Qed.

(** C5: the entry produced for a fetched item has exactly the keys
    [id], [hfid] and the included fields, each mapped to a string: the
    item's own [id] and [hfid] (unless an included field has that name)
    and, for an included field, what the resolver returns for it, which
    is the empty string when the field is unresolved; and its value is
    1. *)
Theorem entry_label_set (kp : MetricsKind) (itm : InfrahubNode) (e : MetricEntry) :
  entry_for_item kp itm = Ok e →
  dom (labels e) = {["id"; "hfid"]} ∪ list_to_set (include kp)
  ∧ (∀ k, k = "id" ∨ k = "hfid" ∨ k ∈ include kp → ∃ s : string, labels e !! k = Some s)
  ∧ (∀ field, field ∈ include kp →
       ∃ s, resolve_field itm field = Ok s ∧ labels e !! field = Some s)
  ∧ (∀ field, field ∈ include kp → unresolved itm field = true →
       labels e !! field = Some "")
  ∧ ("id" ∉ include kp → labels e !! "id" = Some (str_or_empty (node_id itm)))
  ∧ ("hfid" ∉ include kp → labels e !! "hfid" = Some (str_or_empty (node_hfid itm)))
  ∧ value e = 1.
Proof.
  clear str_lower. unfold entry_for_item.
  destruct (fill_labels itm (include kp) _) as [m|err] eqn:Hfill; simpl; [|done].
  intros [= <-]. simpl.
  pose proof (fill_labels_dom _ _ _ _ Hfill) as Hdom.
  rewrite !dom_insert_L, dom_empty_L in Hdom.
  assert (dom m = {["id"; "hfid"]} ∪ list_to_set (include kp)) as Hdom'
    by (rewrite Hdom; set_solver).
  split; [done|]. split.
  { intros k Hk. apply (elem_of_dom (D := gset string)). rewrite Hdom'.
    destruct Hk as [->| [->|Hk]]; set_solver. }
  split; [intros field Hin; by apply (fill_labels_lookup _ _ _ _ _ Hfill)|].
  split.
  { intros field Hin Hun.
    destruct (fill_labels_lookup _ _ _ _ _ Hfill Hin) as (s & Hs & Hm).
    rewrite (resolve_unresolved _ _ Hun) in Hs. by injection Hs as <-. }
  split; [|split; [|done]].
  - intros Hout. rewrite (fill_labels_other _ _ _ _ _ Hfill Hout).
    rewrite lookup_insert_ne by done. apply lookup_insert_eq.
  - intros Hout. rewrite (fill_labels_other _ _ _ _ _ Hfill Hout).
    apply lookup_insert_eq.
Qed.

(** The label of an included scalar attribute: its value stringified
    when the value is truthy, the empty string otherwise. *)
Lemma attribute_label (kp : MetricsKind) (itm : InfrahubNode) (e : MetricEntry)
    (field : string) (v : json) :
  entry_for_item kp itm = Ok e →
  field ∈ include kp →
  od_get field (node_fields itm) = Some (Attribute v) →
  labels e !! field = Some (if truthy v then py_str v else "").
Proof.
  intros He Hin Hattr.
  destruct (entry_for_item_lookup _ _ _ _ He Hin) as (s & Hs & Hl).
  unfold resolve_field in Hs. rewrite Hattr in Hs. by injection Hs as <-.
Qed.

(** C4: the failing input.  A node whose boolean attribute [enabled] is
    [False], fetched with [include = ["enabled"]]: the value is not
    null and prints as ["False"], yet [val or ""] replaces it by the
    empty string, and the label is [""]. *)
Theorem false_attribute_label_is_empty :
  py_str (JBool false) = "False"
  ∧ (fun e => labels e !! "enabled")
      <$> entry_for_item
            {| kind := "Device"; include := ["enabled"]; filters := [] |}
            {| node_id := Some "1"; node_hfid := Some "Device(rtr1)";
               node_fields := [("enabled", Attribute (JBool false))] |}
    = Ok (Some "").
Proof. split; [reflexivity|]. vm_compute. reflexivity. Qed.

(** ** The metric store *)

Lemma fetch_and_store_failed (client : InfrahubClient) (settings : SidecarSettings)
    (kp : MetricsKind) (store : list (string * list MetricEntry)) :
  fetch_outcome client settings kp = SchemaNotFoundError
  ∨ fetch_outcome client settings kp = FetchException →
  _fetch_and_store client settings kp store = Ok (od_set (kind kp) [] store).
Proof.
  intros H. unfold _fetch_and_store, fetch_items. by destruct H as [-> | ->].
Qed.

Lemma fetch_and_store_other (client : InfrahubClient) (settings : SidecarSettings)
    (kp : MetricsKind) (store store' : list (string * list MetricEntry)) (k : string) :
  _fetch_and_store client settings kp store = Ok store' →
  kind kp ≠ k → od_get k store' = od_get k store.
Proof.
  unfold _fetch_and_store.
  destruct (mapM (entry_for_item kp) (fetch_items client settings kp)) as [es|e];
    simpl; [|done].
  intros [= <-] Hne. by apply od_get_set_ne.
Qed.

(** The tasks of the other kinds leave a kind's entry list alone. *)
Lemma poll_cycle_other (client : InfrahubClient) (settings : SidecarSettings)
    (finish_order : list MetricsKind) (store : list (string * list MetricEntry))
    (k : string) :
  Forall (fun kp => kind kp ≠ k) finish_order →
  od_get k (poll_cycle client settings finish_order store) = od_get k store.
Proof.
  intros H. revert store. unfold poll_cycle.
  induction H as [|kp rest Hkp _ IH]; intros store; simpl; [done|].
  rewrite IH.
  destruct (_fetch_and_store client settings kp store) as [st'|e] eqn:Hst; [|done].
  by apply (fetch_and_store_other _ _ _ _ _ _ Hst).
Qed.

Lemma poll_cycle_keeps_empty (client : InfrahubClient) (settings : SidecarSettings)
    (finish_order : list MetricsKind) (store : list (string * list MetricEntry))
    (k : string) :
  Forall (fun kp => kind kp = k →
            fetch_outcome client settings kp = SchemaNotFoundError
            ∨ fetch_outcome client settings kp = FetchException) finish_order →
  od_get k store = Some [] →
  od_get k (poll_cycle client settings finish_order store) = Some [].
Proof.
  intros H. revert store. unfold poll_cycle.
  induction H as [|kp rest Hkp _ IH]; intros store Hstore; simpl; [done|].
  apply IH. destruct (decide (kind kp = k)) as [Heq|Hne].
  - rewrite (fetch_and_store_failed _ _ _ _ (Hkp Heq)), Heq. apply od_get_set_eq.
  - destruct (_fetch_and_store client settings kp store) as [st'|e] eqn:Hst; [|done].
    by rewrite (fetch_and_store_other _ _ _ _ _ _ Hst Hne).
Qed.

(** C1, as amended: when the fetch for a kind fails, by an unknown
    schema or by any other error, the task goes on with no items and
    assigns the empty list to the kind; when this is so for every spec
    configured under that kind, the store's entry list for the kind is
    empty after the cycle, whatever it was before and in whatever order
    the tasks finish. *)
Theorem failed_fetch_empties_kind (client : InfrahubClient) (settings : SidecarSettings)
    (kp : MetricsKind) :
  fetch_outcome client settings kp = SchemaNotFoundError
  ∨ fetch_outcome client settings kp = FetchException →
  (∀ store, _fetch_and_store client settings kp store
            = Ok (od_set (kind kp) [] store))
  ∧ (∀ store, od_get (kind kp) (od_set (kind kp) ([] : list MetricEntry) store)
              = Some [])
  ∧ (∀ finish_order store,
       kp ∈ finish_order →
       (∀ kp', kp' ∈ finish_order → kind kp' = kind kp →
          fetch_outcome client settings kp' = SchemaNotFoundError
          ∨ fetch_outcome client settings kp' = FetchException) →
       od_get (kind kp) (poll_cycle client settings finish_order store) = Some []).
Proof.
  intros Hfail. split; [|split].
  - intros store. by apply fetch_and_store_failed.
  - intros store. apply od_get_set_eq.
  - intros finish_order store Hin Hall.
    apply list_elem_of_split in Hin as (l1 & l2 & ->).
    unfold poll_cycle. rewrite fold_left_app. simpl.
    rewrite (fetch_and_store_failed _ _ _ _ Hfail).
    match goal with
    | |- od_get _ (fold_left ?f l2 ?st) = _ =>
        change (fold_left f l2 st) with (poll_cycle client settings l2 st)
    end.
    apply poll_cycle_keeps_empty; [|apply od_get_set_eq].
    apply Forall_forall. intros kp' Hkp' Heq. apply Hall; [|done].
    apply elem_of_app. right. by apply list_elem_of_further.
Qed.

(** ** Pull and push *)

Lemma zip_map_self {A B : Type} (f : A → B) (l : list A) :
  zip l (map f l) = map (fun x => (x, f x)) l.
Proof. induction l as [|x l IH]; simpl; [done|by rewrite IH]. Qed.

(** C3, as amended: for a kind that has an entry list in the store and
    a kind spec whose included fields are those of the first spec
    configured under its kind name (the first spec itself, for
    instance), the family rendered by [collect] and the observations of
    the push callback stand for the same (label set, value) pairs,
    entry by entry, with the label order [id, hfid] followed by the
    included fields. *)
Theorem pull_push_same_pairs (settings : SidecarSettings)
    (store : list (string * list MetricEntry)) (kp first : MetricsKind)
    (entries : list MetricEntry) :
  od_get (kind kp) store = Some entries →
  find_kind settings (kind kp) = Some first →
  include first = include kp →
  ∃ fam obs,
    collect_kind settings (kind kp, entries) = Some fam
    ∧ fam ∈ collect settings store
    ∧ _otlp_callback kp store = Ok obs
    ∧ labelnames fam = "id" :: "hfid" :: include kp
    ∧ length (samples fam) = length entries
    ∧ family_pairs fam = observation_pairs obs.
Proof.
  intros Hstore Hfind Hinclude. unfold collect_kind, _otlp_callback. simpl.
  rewrite Hfind, Hstore. eexists. eexists.
  split; [reflexivity|]. split; [|split; [reflexivity|]].
  - unfold collect. apply list_elem_of_omap.
    exists (kind kp, entries). split; [by apply od_get_elem_of|].
    unfold collect_kind. simpl. by rewrite Hfind.
  - split; [simpl; unfold label_order; by rewrite Hinclude|].
    split; [simpl; by rewrite length_map|].
    unfold family_pairs, observation_pairs, label_order. simpl.
    rewrite Hinclude, !map_map. apply map_ext. intros entry. simpl.
    by rewrite zip_map_self.
Qed.

(** * Further properties of the code *)

(** ** Query names *)

Lemma has_char_append (c : ascii) (s t : string) :
  has_char c (s +:+ t) = has_char c s || has_char c t.
Proof.
  induction s as [|a r IH]; [done|].
  change (String a r +:+ t) with (String a (r +:+ t)). simpl.
  by rewrite IH, orb_assoc.
Qed.

Lemma split_on_no_sep (sep : ascii) (s : string) :
  has_char sep s = false → split_on sep s = [s].
Proof.
  induction s as [|a r IH]; simpl; [done|].
  intros [Ha Hr]%orb_false_elim. rewrite Ha. by rewrite (IH Hr).
Qed.

Lemma last_of_path (dir base : string) :
  has_char "/"%char base = false →
  List.last (split_on "/"%char (dir +:+ "/" +:+ base)) "" = base.
Proof.
  intros Hbase.
  change (dir +:+ "/" +:+ base) with (dir +:+ String "/"%char base).
  rewrite split_on_app, (split_on_no_sep _ _ Hbase). apply last_last.
Qed.

Lemma stem_of_file_name (stem ext : string) :
  has_char "."%char stem = false →
  hd "" (split_on "."%char (stem +:+ "." +:+ ext)) = stem.
Proof.
  intros Hstem.
  change (stem +:+ "." +:+ ext) with (stem +:+ String "."%char ext).
  by rewrite split_on_app, (split_on_no_sep _ _ Hstem).
Qed.

(** X1: the name of a query is the name of its file up to the first
    dot, whatever the directory and the extension: [dir/stem.ext] and
    the bare [stem.ext] are both named [stem]. *)
Theorem derive_name_is_file_stem (dir stem ext : string) :
  has_char "/"%char stem = false →
  has_char "."%char stem = false →
  has_char "/"%char ext = false →
  derive_name (dir +:+ "/" +:+ stem +:+ "." +:+ ext) = stem
  ∧ derive_name (stem +:+ "." +:+ ext) = stem.
Proof.
  intros Hslash Hdot Hext.
  assert (has_char "/"%char (stem +:+ "." +:+ ext) = false) as Hbase.
  { change (stem +:+ "." +:+ ext) with (stem +:+ String "."%char ext).
    rewrite has_char_append. simpl. by rewrite Hslash, Hext. }
  unfold derive_name. split.
  - rewrite (last_of_path _ _ Hbase). by apply stem_of_file_name.
  - rewrite (split_on_no_sep _ _ Hbase). simpl. by apply stem_of_file_name.
Qed.

(** X2: a query read from a hidden file ([dir/.rest]) or from a path
    that ends with a slash gets the empty name; [get_targets] then
    returns the empty list at once: it reads no file, executes no query
    and leaves the manager as it is. *)
Theorem unnamed_query_is_never_fetched (env : DiscoveryEnv) (dir rest tf : string)
    (refresh : Z) (lm : list (string * string)) (pf : option string)
    (now : Z) (m : Manager) :
  has_char "/"%char rest = false →
  get_targets env (make_query (dir +:+ "/." +:+ rest) tf refresh lm pf) now m
    = (m, Ok [])
  ∧ get_targets env (make_query (dir +:+ "/") tf refresh lm pf) now m = (m, Ok []).
Proof.
  intros Hrest.
  assert (derive_name (dir +:+ "/." +:+ rest) = "") as Hhidden.
  { unfold derive_name.
    change (dir +:+ "/." +:+ rest) with (dir +:+ "/" +:+ String "."%char rest).
    rewrite last_of_path; [done|]. simpl. exact Hrest. }
  assert (derive_name (dir +:+ "/") = "") as Hslash.
  { unfold derive_name.
    change (dir +:+ "/") with (dir +:+ "/" +:+ "").
    by rewrite last_of_path. }
  unfold get_targets, make_query. simpl. by rewrite Hhidden, Hslash.
Qed.

(** ** More on the discovery cache *)

Lemma fetch_failed_query (env : DiscoveryEnv) (query : ServiceDiscoveryQuery)
    (content : string) :
  read_text env (file_path query) = Some content →
  execute_graphql env content = None
  ∨ (∃ resp, execute_graphql env content = Some resp ∧ od_mem "errors" resp = true) →
  _fetch_and_transform env query
  = ([ReadFile (file_path query); ExecuteQuery content], Ok []).
Proof.
  intros Hread Hfail. unfold _fetch_and_transform. rewrite Hread.
  destruct Hfail as [-> | (resp & -> & Herr)]; [done|].
  unfold transform. by rewrite Herr.
Qed.

(** X3: when the execution of the query raises, or when the response
    has an [errors] key (whatever else it holds), a call that finds no
    fresh entry returns the empty list after one execution and stores it
    under the reading of the clock; until the entry expires the
    following calls return the empty list without executing anything. *)
Theorem failed_query_is_cached_as_empty
    (env : DiscoveryEnv) (query : ServiceDiscoveryQuery) (key content : string)
    (now : Z) (m : Manager) :
  name query = Some key → key ≠ "" →
  read_text env (file_path query) = Some content →
  execute_graphql env content = None
  ∨ (∃ resp, execute_graphql env content = Some resp ∧ od_mem "errors" resp = true) →
  (∀ c, cache m !! key = Some c → refresh_interval_seconds query ≤ now - timestamp c) →
  let m' := (get_targets env query now m).1 in
  (get_targets env query now m).2 = Ok []
  ∧ cache m' !! key = Some {| timestamp := now; targets := [] |}
  ∧ executions (trace m') = S (executions (trace m))
  ∧ ∀ env' now', now' - now < refresh_interval_seconds query →
      get_targets env' query now' m' = (m', Ok []).
Proof.
  intros Hname Hkey Hread Hfail Hstale m'.
  pose proof (fetch_failed_query _ _ _ Hread Hfail) as Hfetch.
  assert (get_targets env query now m =
    ({| cache := <[key := {| timestamp := now; targets := [] |}]> (cache m);
        trace := trace m ++ [ReadFile (file_path query); ExecuteQuery content] |},
     Ok [])) as Hcall.
  { rewrite (get_targets_miss _ _ key _ _ []); try done.
    - by rewrite Hfetch.
    - by rewrite Hfetch. }
  unfold m'. rewrite Hcall. simpl. repeat split; try done.
  - apply lookup_insert_eq.
  - apply executions_one_fetch.
  - intros env' now' Hwithin.
    apply (get_targets_hit _ _ key _ _ {| timestamp := now; targets := [] |});
      try done.
    simpl. apply lookup_insert_eq.
Qed.

(** X4: when the transformation raises, the exception leaves
    [get_targets] and nothing is stored: the cache is as it was before
    the call, so the failure is not remembered and a later call, which
    again finds no fresh entry, fetches again. *)
Theorem raising_fetch_is_not_cached
    (env : DiscoveryEnv) (query : ServiceDiscoveryQuery) (key : string)
    (now : Z) (m : Manager) (e : exn) :
  name query = Some key → key ≠ "" →
  (∀ c, cache m !! key = Some c → refresh_interval_seconds query ≤ now - timestamp c) →
  (_fetch_and_transform env query).2 = Raise e →
  let m' := (get_targets env query now m).1 in
  (get_targets env query now m).2 = Raise e
  ∧ cache m' = cache m
  ∧ trace m' = trace m ++ (_fetch_and_transform env query).1
  ∧ ∀ later, now ≤ later →
      ∀ c, cache m' !! key = Some c → refresh_interval_seconds query ≤ later - timestamp c.
Proof.
  intros Hname Hkey Hstale Hfetch m'.
  assert (get_targets env query now m =
    ({| cache := cache m; trace := trace m ++ (_fetch_and_transform env query).1 |},
     Raise e)) as Hcall.
  { unfold get_targets. rewrite Hname, (truthy_name _ Hkey). simpl.
    destruct (_fetch_and_transform env query) as [events fetched].
    simpl in Hfetch. subst fetched. simpl.
    destruct (cache m !! key) as [c|] eqn:Hc; [|done].
    specialize (Hstale c eq_refl).
    by rewrite (proj2 (Z.ltb_ge _ _) Hstale). }
  unfold m'. rewrite Hcall. simpl. repeat split; try done.
  intros later Hlater c Hc. specialize (Hstale c Hc). lia.
Qed.

(** X5: a call only ever writes the entry of its own query name: the
    entries stored under the other names are the same after the call,
    whether it was served from the cache, fetched, or raised. *)
Theorem get_targets_keeps_other_entries
    (env : DiscoveryEnv) (query : ServiceDiscoveryQuery) (now : Z) (m : Manager)
    (k : string) :
  name query ≠ Some k →
  cache (get_targets env query now m).1 !! k = cache m !! k.
Proof.
  intros Hother. unfold get_targets.
  destruct (name query) as [key|] eqn:Hname; simpl; [|done].
  destruct (negb (String.eqb key "")); [|done].
  assert (key ≠ k) as Hne by congruence.
  destruct (_fetch_and_transform env query) as [events [tgs|e]];
    destruct (cache m !! key) as [c|]; simpl;
    try destruct (now - timestamp c <? refresh_interval_seconds query); simpl;
    try done; by rewrite lookup_insert_ne.
Qed.

(** X6: the cache is keyed by the query name alone.  After a query has
    been fetched, another query with the same name (a file with the
    same stem elsewhere) that is asked for within its own refresh
    interval is served the first query's targets: its own file is not
    read and its own query is not executed. *)
Theorem same_name_queries_share_the_entry
    (env1 env2 : DiscoveryEnv) (q1 q2 : ServiceDiscoveryQuery) (key : string)
    (t1 t2 : Z) (m : Manager) (tgs1 : list TargetGroup) :
  name q1 = Some key → name q2 = Some key → key ≠ "" →
  (∀ c, cache m !! key = Some c → refresh_interval_seconds q1 ≤ t1 - timestamp c) →
  (_fetch_and_transform env1 q1).2 = Ok tgs1 →
  t2 - t1 < refresh_interval_seconds q2 →
  let m1 := (get_targets env1 q1 t1 m).1 in
  get_targets env2 q2 t2 m1 = (m1, Ok tgs1).
Proof.
  intros Hn1 Hn2 Hkey Hstale Hfetch Hwithin m1.
  unfold m1. rewrite (get_targets_miss _ _ key _ _ tgs1 Hn1 Hkey Hstale Hfetch). simpl.
  apply (get_targets_hit _ _ key _ _ {| timestamp := t1; targets := tgs1 |});
    try done.
  simpl. apply lookup_insert_eq.
Qed.

(** ** Rows of the discovery response *)

Lemma walk_non_mapping (parts : list string) (node : json) :
  (∀ d, node ≠ JDict d) →
  parts ≠ [] →
  walk parts node
  = if endswith_brackets (hd "" parts) then Raise AttributeError else Ok None.
Proof.
  intros Hnode Hparts. destruct parts as [|part rest]; [done|]. simpl.
  destruct (endswith_brackets part).
  - unfold array_segment. destruct node; try done. by destruct (Hnode d).
  - destruct node; try done. by destruct (Hnode d).
Qed.

(** X7: an edge whose node is not a mapping (a null node, for
    instance) gives no target group.  When the target field starts with
    a plain segment the edge is skipped; when it starts with an array
    segment the lookup on the node raises an attribute error. *)
Theorem edge_without_node_mapping (query : ServiceDiscoveryQuery)
    (kind_name : string) (edge node : json) :
  py_get edge "node" (JDict []) = Ok node →
  (∀ d, node ≠ JDict d) →
  target_for_edge query kind_name edge
  = if endswith_brackets (hd "" (split_on "."%char (target_field query)))
    then Raise AttributeError else Ok None.
Proof.
  intros Hedge Hnode.
  assert (_extract_field node (target_field query)
          = if endswith_brackets (hd "" (split_on "."%char (target_field query)))
            then Raise AttributeError else Ok None) as Haddr
    by (apply walk_non_mapping; [done|apply split_on_nonempty]).
  unfold target_for_edge. rewrite Hedge. unfold mbind at 1, result_bind at 1.
  rewrite Haddr. by destruct (endswith_brackets _).
Qed.

(** X8: every emitted target group has exactly one target.  It is the
    non-empty string found under the target field, alone when no port
    field is configured or when the port is missing or empty, and
    followed by a colon and the port otherwise. *)
Theorem emitted_group_has_one_target (query : ServiceDiscoveryQuery)
    (kind_name : string) (edge : json) (tg : TargetGroup) :
  target_for_edge query kind_name edge = Ok (Some tg) →
  ∃ node addr,
    py_get edge "node" (JDict []) = Ok node
    ∧ _extract_field node (target_field query) = Ok (Some addr)
    ∧ addr ≠ ""
    ∧ ((tg_targets tg = [addr]
        ∧ (truthy_str (port_field query) = false
           ∨ ∃ port, _extract_field node (default "" (port_field query)) = Ok port
                     ∧ truthy_str port = false))
       ∨ (∃ pf port,
            port_field query = Some pf ∧ pf ≠ ""
            ∧ _extract_field node pf = Ok (Some port) ∧ port ≠ ""
            ∧ tg_targets tg = [addr +:+ ":" +:+ port])).
Proof.
  unfold target_for_edge.
  destruct (py_get edge "node" (JDict [])) as [node|e] eqn:Hnode; simpl; [|done].
  destruct (_extract_field node (target_field query)) as [[addr|]|e] eqn:Hextract;
    simpl; try done.
  destruct (String.eqb_spec addr "") as [->|Haddr]; simpl; [done|].
  intros H. exists node, addr. do 3 (split; [done|]).
  destruct (port_field query) as [pf|] eqn:Hpf; simpl in H |- *.
  - destruct (String.eqb_spec pf "") as [->|Hpfne]; simpl in H.
    + left. split; [|by left].
      destruct (map_labels node (label_mappings query) []); simpl in H; [|done].
      destruct (py_get node "id" JNull); simpl in H; [|done]. by injection H as <-.
    + destruct (_extract_field node pf) as [[port|]|e] eqn:Hport; simpl in H; [| |done].
      * destruct (String.eqb_spec port "") as [->|Hportne]; simpl in H.
        -- left. split; [|right; by exists (Some "")].
           destruct (map_labels node (label_mappings query) []); simpl in H; [|done].
           destruct (py_get node "id" JNull); simpl in H; [|done].
           by injection H as <-.
        -- right. exists pf, port. do 4 (split; [done|]).
           destruct (map_labels node (label_mappings query) []); simpl in H; [|done].
           destruct (py_get node "id" JNull); simpl in H; [|done].
           by injection H as <-.
      * left. split; [|right; by exists None].
        destruct (map_labels node (label_mappings query) []); simpl in H; [|done].
        destruct (py_get node "id" JNull); simpl in H; [|done]. by injection H as <-.
  - left. split; [|by left].
    destruct (map_labels node (label_mappings query) []); simpl in H; [|done].
    destruct (py_get node "id" JNull); simpl in H; [|done]. by injection H as <-.
Qed.

Lemma map_labels_other (node : json) (ms : list (string * string))
    (acc ls : list (string * json)) (k : string) :
  map_labels node ms acc = Ok ls → k ∉ ms.*1 → od_get k ls = od_get k acc.
Proof.
  revert acc. induction ms as [|[k0 p0] rest IH]; intros acc; simpl.
  - by intros [= <-].
  - destruct (_extract_field node p0) as [val|e]; simpl; [|done].
    intros H Hk. apply not_elem_of_cons in Hk as [Hne Hk].
    rewrite (IH _ H Hk). destruct val; [|done]. by apply od_get_set_ne.
Qed.

Lemma map_labels_lookup (node : json) (ms : list (string * string))
    (acc ls : list (string * json)) (k path : string) :
  NoDup ms.*1 → map_labels node ms acc = Ok ls → (k, path) ∈ ms →
  ∃ r, _extract_field node path = Ok r
       ∧ od_get k ls = match r with
                       | Some s => Some (JStr s)
                       | None => od_get k acc
                       end.
Proof.
  revert acc. induction ms as [|[k0 p0] rest IH]; intros acc Hnodup; simpl.
  - intros _ H. by apply elem_of_nil in H.
  - simpl in Hnodup. apply NoDup_cons in Hnodup as [Hfresh Hnodup].
    destruct (_extract_field node p0) as [val|e] eqn:Hval; simpl; [|done].
    intros H Hin. apply elem_of_cons in Hin as [[= -> ->]|Hin].
    + exists val. split; [done|].
      rewrite (map_labels_other _ _ _ _ _ H Hfresh).
      destruct val; [apply od_get_set_eq|done].
    + destruct (IH _ Hnodup H Hin) as (r & Hr & Hget). exists r. split; [done|].
      rewrite Hget. destruct r; [done|].
      destruct val; [|done]. apply od_get_set_ne.
      intros ->. apply Hfresh. by apply (list_elem_of_fmap_2 fst _ (k, path)).
Qed.

Lemma map_labels_keys (node : json) (ms : list (string * string))
    (acc ls : list (string * json)) (k : string) :
  map_labels node ms acc = Ok ls → od_mem k ls = true →
  od_mem k acc = true ∨ k ∈ ms.*1.
Proof.
  revert acc. induction ms as [|[k0 p0] rest IH]; intros acc; simpl.
  - intros [= <-]. by left.
  - destruct (_extract_field node p0) as [val|e]; simpl; [|done].
    intros H Hk. destruct (IH _ H Hk) as [Hacc|Hrest].
    + destruct val as [s|]; [|by left].
      destruct (decide (k0 = k)) as [->|Hne]; [right; apply list_elem_of_here|].
      left. unfold od_mem in *. by rewrite od_get_set_ne in Hacc.
    + right. by apply list_elem_of_further.
Qed.

(** X9: the labels of an emitted target group.  A configured label
    whose path resolves (to the empty string as well) is present with
    the resolved string, one whose path is missing is absent and the
    group is emitted all the same; and the group has no label beside
    the configured ones and the two meta labels. *)
Theorem emitted_group_labels (query : ServiceDiscoveryQuery)
    (kind_name : string) (edge : json) (tg : TargetGroup) :
  target_for_edge query kind_name edge = Ok (Some tg) →
  NoDup (label_mappings query).*1 →
  (∀ key path,
     (key, path) ∈ label_mappings query →
     key ≠ "__meta_infrahub_id" → key ≠ "__meta_infrahub_kind" →
     ∃ node r, py_get edge "node" (JDict []) = Ok node
               ∧ _extract_field node path = Ok r
               ∧ od_get key (tg_labels tg) = JStr <$> r)
  ∧ (∀ k, od_mem k (tg_labels tg) = true →
       k = "__meta_infrahub_id" ∨ k = "__meta_infrahub_kind"
       ∨ k ∈ (label_mappings query).*1).
Proof.
  unfold target_for_edge. intros H Hnodup.
  destruct (py_get edge "node" (JDict [])) as [node|e]; simpl in H; [|done].
  destruct (_extract_field node (target_field query)) as [addr|e]; simpl in H; [|done].
  destruct (negb (truthy_str addr)); [done|].
  match type of H with context [mbind _ ?port] => destruct port as [addr'|e] end;
    simpl in H; [|done].
  destruct (map_labels node (label_mappings query) []) as [lbls|e] eqn:Hlbls;
    simpl in H; [|done].
  destruct (py_get node "id" JNull) as [nid|e]; simpl in H; [|done].
  injection H as <-. simpl. split.
  - intros key path Hin Hid Hkind.
    destruct (map_labels_lookup _ _ _ _ _ _ Hnodup Hlbls Hin) as (r & Hr & Hget).
    exists node, r. do 2 (split; [done|]).
    rewrite !od_get_set_ne by done. rewrite Hget. by destruct r.
  - intros k Hk.
    destruct (decide (k = "__meta_infrahub_kind")) as [->|Hkind]; [by right; left|].
    destruct (decide (k = "__meta_infrahub_id")) as [->|Hid]; [by left|].
    right; right. unfold od_mem in Hk.
    rewrite !od_get_set_ne in Hk by done.
    by destruct (map_labels_keys _ _ _ _ _ Hlbls Hk).
Qed.

(** X10: a response without a [data] key is taken as the data itself:
    it is transformed like the response that wraps it under [data]. *)
Theorem response_without_data_key (query : ServiceDiscoveryQuery)
    (resp : list (string * json)) :
  od_mem "data" resp = false →
  od_mem "errors" resp = false →
  transform query resp = transform query [("data", JDict resp)].
Proof.
  unfold transform, od_mem. intros Hdata Herr. simpl.
  destruct (od_get "data" resp); [done|].
  by destruct (od_get "errors" resp).
Qed.

(** ** Extraction on well-shaped documents *)

(** X11: a path made of plain segments, on a document in which every
    "node" entry the walk consults is a mapping: extraction does not
    raise, and its result is that of the walk which descends into the
    key of the current mapping, else into the key of the mapping under
    "node", stops with the missing marker on a null or on anything
    else, and ends with the [value] leaf of a mapping or with a scalar,
    printed. *)
Theorem plain_path_extraction (node : json) (path_expr : string) :
  Forall (fun s => endswith_brackets s = false) (split_on "."%char path_expr) →
  node_entries_are_mappings (split_on "."%char path_expr) node = true →
  _extract_field node path_expr = Ok (spec_walk (split_on "."%char path_expr) node).
Proof. intros Hplain Hshape. unfold _extract_field. by apply walk_plain_spec. Qed.

Lemma sequence_item_value_spec (item : json) :
  sequence_item_value item = spec_sequence_leaf item.
Proof.
  destruct item as [|[|]| | | |l|m]; try reflexivity.
  unfold sequence_item_value. simpl.
  by destruct (od_get "value" m) as [[|[|]| | | |l|d]|].
Qed.

Lemma spec_array_strings_values (arr : option json) :
  spec_array_values arr = spec_array_strings arr.
Proof.
  destruct arr as [[| | | | |items|conn]|]; try reflexivity. simpl.
  induction items as [|item items IH]; [done|]. simpl.
  rewrite (sequence_item_value_spec item).
  destruct (spec_sequence_leaf item); [f_equal|]; exact IH.
Qed.

(** X12: a path that is one array segment [field[]], on a mapping whose
    field is absent, is no connection, or is a connection of
    well-shaped edges: extraction does not raise.  For a connection it
    returns the [name.value] leaves of the edges' nodes and for a plain
    list its strings, numbers and booleans and the [value] leaves of its
    mappings, each printed and all joined with commas; it returns the
    missing marker when there is none (a field that is absent, null, a
    scalar or a mapping without edges, an empty list or connection). *)
Theorem array_path_extraction (doc : list (string * json)) (field : string) :
  has_char "."%char field = false →
  connection_well_shaped (od_get field doc) = true →
  _extract_field (JDict doc) (field +:+ "[]")
  = Ok (match spec_array_strings (od_get field doc) with
        | [] => None
        | v :: vs => Some (join "," (v :: vs))
        end).
Proof.
  intros Hfield Hshape. unfold _extract_field.
  rewrite <- spec_array_strings_values.
  rewrite split_on_no_sep; [by apply array_segment_collects|].
  rewrite has_char_append. by rewrite Hfield.
Qed.

(** ** More on the publishers *)

Lemma find_kind_Some (settings : SidecarSettings) (k : string) (kp : MetricsKind) :
  find_kind settings k = Some kp → kp ∈ metrics_kind settings ∧ kind kp = k.
Proof.
  unfold find_kind. intros H. apply find_some in H as [Hin Heq].
  split; [by apply list_elem_of_In|]. by apply String.eqb_eq.
Qed.

Lemma find_kind_configured (settings : SidecarSettings) (kp : MetricsKind) :
  kp ∈ metrics_kind settings → ∃ kp', find_kind settings (kind kp) = Some kp'.
Proof.
  intros Hin. unfold find_kind.
  destruct (find _ (metrics_kind settings)) as [kp'|] eqn:Hfind; [by exists kp'|].
  apply list_elem_of_In in Hin.
  pose proof (find_none _ _ Hfind kp Hin) as Hno. simpl in Hno.
  by rewrite String.eqb_refl in Hno.
Qed.

Lemma od_set_elem_of {V : Type} (k : string) (v : V) (d : list (string * V)) :
  (k, v) ∈ od_set k v d.
Proof.
  induction d as [|[k' v'] d IH]; simpl.
  - apply list_elem_of_here.
  - destruct (String.eqb k' k); [apply list_elem_of_here|by apply list_elem_of_further].
Qed.

(** X13: what [collect] renders.  Every family stands for a kind of the
    store that is configured; it is named after the kind, its label
    names are [id], [hfid] and the included fields of the first spec
    configured for the kind, it has one sample per stored entry, and
    every sample has exactly one value per label name. *)
Theorem collect_families_are_well_formed (settings : SidecarSettings)
    (store : list (string * list MetricEntry)) (fam : GaugeMetricFamily) :
  fam ∈ collect settings store →
  ∃ k entries kp,
    (k, entries) ∈ store
    ∧ find_kind settings k = Some kp
    ∧ kp ∈ metrics_kind settings ∧ kind kp = k
    ∧ family_name fam = "infrahub_" +:+ str_lower k +:+ "_info"
    ∧ labelnames fam = "id" :: "hfid" :: include kp
    ∧ length (samples fam) = length entries
    ∧ Forall (fun s => length s.1 = length (labelnames fam)) (samples fam).
Proof.
  unfold collect. intros Hfam.
  apply list_elem_of_omap in Hfam as ([k entries] & Hin & Hfam).
  unfold collect_kind in Hfam. simpl in Hfam.
  destruct (find_kind settings k) as [kp|] eqn:Hfind; [|done].
  injection Hfam as <-. destruct (find_kind_Some _ _ _ Hfind) as [Hkp Hkind].
  exists k, entries, kp. simpl. repeat split; try done.
  - by rewrite length_map.
  - apply Forall_forall. intros s Hs.
    apply list_elem_of_fmap in Hs as (entry & -> & _). simpl.
    by rewrite length_map.
Qed.

(** X14: after a failed fetch the kind is still rendered: the store
    holds the empty list for it, and [collect] yields a family named
    after the kind that has no sample. *)
Theorem failed_fetch_renders_empty_family (client : InfrahubClient)
    (settings : SidecarSettings) (kp : MetricsKind)
    (store : list (string * list MetricEntry)) :
  kp ∈ metrics_kind settings →
  fetch_outcome client settings kp = SchemaNotFoundError
  ∨ fetch_outcome client settings kp = FetchException →
  ∃ store' fam,
    _fetch_and_store client settings kp store = Ok store'
    ∧ fam ∈ collect settings store'
    ∧ family_name fam = "infrahub_" +:+ str_lower (kind kp) +:+ "_info"
    ∧ samples fam = [].
Proof.
  intros Hin Hfail. destruct (find_kind_configured _ _ Hin) as [kp' Hfind].
  exists (od_set (kind kp) [] store). eexists.
  split; [by apply fetch_and_store_failed|]. split.
  - unfold collect. apply list_elem_of_omap.
    exists (kind kp, []). split; [apply od_set_elem_of|].
    unfold collect_kind. simpl. by rewrite Hfind.
  - done.
Qed.

Lemma od_get_fold_pairs {V : Type} (f : string → V) (ls : list string)
    (acc : list (string * V)) (l : string) :
  od_get l (fold_left (fun d p => od_set p.1 p.2 d) (map (fun x => (x, f x)) ls) acc)
  = if bool_decide (l ∈ ls) then Some (f l) else od_get l acc.
Proof.
  revert acc. induction ls as [|x ls IH]; intros acc; simpl; [done|].
  rewrite IH. destruct (decide (l ∈ ls)) as [Hin|Hout].
  - rewrite !bool_decide_eq_true_2; [done|by apply list_elem_of_further|done].
  - rewrite (bool_decide_eq_false_2 (l ∈ ls)) by done.
    destruct (decide (x = l)) as [->|Hne].
    + rewrite bool_decide_eq_true_2 by apply list_elem_of_here. apply od_get_set_eq.
    + rewrite bool_decide_eq_false_2 by (intros [->|H]%elem_of_cons; done).
      by apply od_get_set_ne.
Qed.

(** X15: what the push callback observes for a kind that is in the
    store: one observation per stored entry, in order, with the entry's
    value; its attributes have exactly the keys [id], [hfid] and the
    included fields, each with the entry's label, and with the empty
    string when the entry has no such label. *)
Theorem otlp_observations_follow_the_entries (kp : MetricsKind)
    (store : list (string * list MetricEntry)) (obs : list Observation) :
  _otlp_callback kp store = Ok obs →
  ∃ entries,
    od_get (kind kp) store = Some entries
    ∧ Forall2
        (fun entry o =>
           obs_value o = value entry
           ∧ ∀ l, od_get l (attributes o)
                  = if bool_decide (l ∈ "id" :: "hfid" :: include kp)
                    then Some (default "" (labels entry !! l)) else None)
        entries obs.
Proof.
  unfold _otlp_callback.
  destruct (od_get (kind kp) store) as [entries|]; [|done].
  intros [= <-]. exists entries. split; [done|].
  apply Forall2_fmap_r, Forall_Forall2_diag, Forall_forall.
  intros entry _. split; [done|]. intros l.
  exact (od_get_fold_pairs (label_of entry) ("id" :: "hfid" :: include kp) [] l).
Qed.

(** ** More on the poller and the store *)

Lemma od_keys_set {V : Type} (k : string) (v : V) (d : list (string * V)) :
  od_keys (od_set k v d) = if od_mem k d then od_keys d else od_keys d ++ [k].
Proof.
  unfold od_keys, od_mem. induction d as [|[k' v'] d IH]; simpl; [done|].
  destruct (String.eqb_spec k' k) as [->|Hne]; simpl; [done|].
  rewrite IH. by destruct (od_get k d).
Qed.

Lemma mapM_Raise {A B : Type} (f : A → result B) (l : list A) (x : A) (e : exn) :
  x ∈ l → f x = Raise e → ∃ e', mapM f l = Raise e'.
Proof.
  induction l as [|y l IH]; intros Hin Hx; [by apply elem_of_nil in Hin|].
  simpl. destruct (f y) as [b|e0] eqn:Hy; simpl; [|by exists e0].
  apply elem_of_cons in Hin as [->|Hin]; [congruence|].
  destruct (IH Hin Hx) as [e' ->]. by exists e'.
Qed.

(** X16: a task that ends without exception replaces the entry list of
    its own kind as a whole, by one entry per fetched item, in the
    order of the items; the entry lists of the other kinds are the same
    as before; and the order of the kinds in the store is kept, a kind
    seen for the first time being added at the end. *)
Theorem fetch_and_store_replaces_one_kind (client : InfrahubClient)
    (settings : SidecarSettings) (kp : MetricsKind)
    (store store' : list (string * list MetricEntry)) :
  _fetch_and_store client settings kp store = Ok store' →
  ∃ entries,
    od_get (kind kp) store' = Some entries
    ∧ Forall2 (fun itm entry => entry_for_item kp itm = Ok entry)
        (fetch_items client settings kp) entries
    ∧ (∀ k, k ≠ kind kp → od_get k store' = od_get k store)
    ∧ od_keys store'
      = if od_mem (kind kp) store then od_keys store else od_keys store ++ [kind kp].
Proof.
  unfold _fetch_and_store.
  destruct (mapM (entry_for_item kp) (fetch_items client settings kp))
    as [entries|e] eqn:Hm; simpl; [|done].
  intros [= <-]. exists entries. split; [apply od_get_set_eq|].
  split; [by apply mapM_Ok_inv|]. split.
  - intros k Hk. by apply od_get_set_ne.
  - apply od_keys_set.
Qed.

(** X17: the update of a kind is all or nothing.  When the resolution
    of one fetched item raises (a relationship peer that cannot be
    fetched), the task raises and assigns nothing: the store keeps what
    it had for the kind, and the entries of the items that did resolve
    are lost. *)
Theorem one_failing_item_discards_the_update (client : InfrahubClient)
    (settings : SidecarSettings) (kp : MetricsKind)
    (store : list (string * list MetricEntry))
    (items : list InfrahubNode) (itm : InfrahubNode) (e : exn) :
  fetch_outcome client settings kp = Fetched items →
  itm ∈ items →
  entry_for_item kp itm = Raise e →
  (∃ e', _fetch_and_store client settings kp store = Raise e')
  ∧ poll_cycle client settings [kp] store = store.
Proof.
  intros Hfetch Hin Hitm.
  assert (∃ e', _fetch_and_store client settings kp store = Raise e') as [e' He'].
  { unfold _fetch_and_store, fetch_items. rewrite Hfetch.
    destruct (mapM_Raise (entry_for_item kp) items itm e Hin Hitm) as [e' ->].
    by exists e'. }
  split; [by exists e'|]. unfold poll_cycle. simpl. by rewrite He'.
Qed.

Lemma poll_step_lookup (client : InfrahubClient) (settings : SidecarSettings)
    (kp : MetricsKind) (store : list (string * list MetricEntry)) :
  od_get (kind kp)
    (match _fetch_and_store client settings kp store with
     | Ok st' => st'
     | Raise _ => store
     end)
  = match mapM (entry_for_item kp) (fetch_items client settings kp) with
    | Ok entries => Some entries
    | Raise _ => od_get (kind kp) store
    end.
Proof.
  unfold _fetch_and_store.
  destruct (mapM (entry_for_item kp) (fetch_items client settings kp)); simpl; [|done].
  apply od_get_set_eq.
Qed.

Lemma poll_cycle_lookup (client : InfrahubClient) (settings : SidecarSettings)
    (finish_order : list MetricsKind) (store : list (string * list MetricEntry))
    (kp : MetricsKind) :
  NoDup (kind <$> finish_order) → kp ∈ finish_order →
  od_get (kind kp) (poll_cycle client settings finish_order store)
  = match mapM (entry_for_item kp) (fetch_items client settings kp) with
    | Ok entries => Some entries
    | Raise _ => od_get (kind kp) store
    end.
Proof.
  intros Hnodup Hin. apply list_elem_of_split in Hin as (l1 & l2 & ->).
  rewrite fmap_app, fmap_cons in Hnodup.
  apply NoDup_app in Hnodup as (_ & Hl1 & Hnodup).
  apply NoDup_cons in Hnodup as [Hl2 _].
  assert (Forall (fun kp' => kind kp' ≠ kind kp) l1) as Hother1.
  { apply Forall_forall. intros kp' Hkp' Heq.
    apply (Hl1 (kind kp')); [by apply list_elem_of_fmap_2|].
    rewrite Heq. apply list_elem_of_here. }
  assert (Forall (fun kp' => kind kp' ≠ kind kp) l2) as Hother2.
  { apply Forall_forall. intros kp' Hkp' Heq. apply Hl2.
    rewrite <- Heq. by apply list_elem_of_fmap_2. }
  unfold poll_cycle. rewrite fold_left_app. simpl.
  fold (poll_cycle client settings l1 store).
  match goal with
  | |- od_get _ (fold_left ?f l2 ?st) = _ =>
      change (fold_left f l2 st) with (poll_cycle client settings l2 st)
  end.
  rewrite (poll_cycle_other _ _ _ _ _ Hother2), poll_step_lookup.
  by rewrite (poll_cycle_other _ _ _ _ _ Hother1).
Qed.

(** X18: when no two configured specs have the same kind, the store a
    cycle leaves does not depend on the order in which the tasks
    finish: every kind has the same entry list for any two orders. *)
Theorem poll_cycle_order_is_irrelevant (client : InfrahubClient)
    (settings : SidecarSettings) (order1 order2 : list MetricsKind)
    (store : list (string * list MetricEntry)) (k : string) :
  order1 ≡ₚ order2 →
  NoDup (kind <$> order1) →
  od_get k (poll_cycle client settings order1 store)
  = od_get k (poll_cycle client settings order2 store).
Proof.
  intros Hperm Hnodup1.
  assert (NoDup (kind <$> order2)) as Hnodup2 by by rewrite <- Hperm.
  destruct (decide (k ∈ kind <$> order1)) as [Hin|Hout].
  - apply list_elem_of_fmap in Hin as (kp & -> & Hkp).
    rewrite (poll_cycle_lookup _ _ _ _ _ Hnodup1 Hkp).
    rewrite Hperm in Hkp. by rewrite (poll_cycle_lookup _ _ _ _ _ Hnodup2 Hkp).
  - rewrite !poll_cycle_other; [done| |].
    + apply Forall_forall. intros kp Hkp Heq. apply Hout.
      rewrite <- Heq, Hperm. by apply list_elem_of_fmap_2.
    + apply Forall_forall. intros kp Hkp Heq. apply Hout.
      rewrite <- Heq. by apply list_elem_of_fmap_2.
Qed.

Lemma fold_set_other (f acc : list (string * string)) (k : string) :
  k ∉ f.*1 →
  od_get k (fold_left (fun a kv => od_set kv.1 kv.2 a) f acc) = od_get k acc.
Proof.
  revert acc. induction f as [|[k0 v0] f IH]; intros acc Hk; simpl; [done|].
  apply not_elem_of_cons in Hk as [Hne Hk]. rewrite (IH _ Hk).
  by apply od_get_set_ne.
Qed.

Lemma fold_set_lookup (f acc : list (string * string)) (k v : string) :
  NoDup f.*1 → (k, v) ∈ f →
  od_get k (fold_left (fun a kv => od_set kv.1 kv.2 a) f acc) = Some v.
Proof.
  revert acc. induction f as [|[k0 v0] f IH]; intros acc Hnodup Hin; simpl.
  - by apply elem_of_nil in Hin.
  - simpl in Hnodup. apply NoDup_cons in Hnodup as [Hfresh Hnodup].
    apply elem_of_cons in Hin as [[= -> ->]|Hin].
    + rewrite (fold_set_other _ _ _ Hfresh). apply od_get_set_eq.
    + by apply IH.
Qed.

(** X19: the filter constraints of a kind spec are merged by key, and
    the last filter entry wins: a key of the last entry has that
    entry's value in the merged constraints, whatever the entries
    before it say, and the other keys keep their merged value. *)
Theorem merge_filters_last_wins (fs : list (list (string * string)))
    (f : list (string * string)) (k : string) :
  NoDup f.*1 →
  (∀ v, (k, v) ∈ f → od_get k (merge_filters (fs ++ [f])) = Some v)
  ∧ (k ∉ f.*1 → od_get k (merge_filters (fs ++ [f])) = od_get k (merge_filters fs)).
Proof.
  intros Hnodup. unfold merge_filters. rewrite fold_left_app. simpl. split.
  - intros v Hin. by apply fold_set_lookup.
  - intros Hout. by apply fold_set_other.
Qed.

(** X20: a kind whose fetched items have, under every included field,
    an attribute, nothing, or a relationship that was not loaded: no
    peer is fetched, so the task cannot raise, and the store receives
    one entry per fetched item. *)
Theorem unloaded_relationships_never_raise (client : InfrahubClient)
    (settings : SidecarSettings) (kp : MetricsKind)
    (store : list (string * list MetricEntry)) :
  (∀ itm field,
     itm ∈ fetch_items client settings kp → field ∈ include kp →
     unresolved itm field = true
     ∨ ∃ v, od_get field (node_fields itm) = Some (Attribute v)) →
  ∃ entries,
    _fetch_and_store client settings kp store = Ok (od_set (kind kp) entries store)
    ∧ length entries = length (fetch_items client settings kp).
Proof.
  intros Hfields. unfold _fetch_and_store.
  assert (∀ items, (∀ itm, itm ∈ items → itm ∈ fetch_items client settings kp) →
          ∃ entries, mapM (entry_for_item kp) items = Ok entries
                     ∧ length entries = length items) as Hall.
  { induction items as [|itm items IH]; intros Hsub; [by exists []|].
    destruct (entry_for_item_returns kp itm) as [entry Hentry].
    { apply Forall_forall. intros field Hfield.
      destruct (Hfields itm field (Hsub itm (list_elem_of_here _ _)) Hfield)
        as [Hun|[v Hv]].
      - exists "". by apply resolve_unresolved.
      - unfold resolve_field. rewrite Hv. by eexists. }
    destruct IH as (entries & Hentries & Hlen).
    { intros itm' Hin. apply Hsub. by apply list_elem_of_further. }
    exists (entry :: entries). simpl. rewrite Hentry. simpl. rewrite Hentries.
    simpl. by rewrite Hlen. }
  destruct (Hall (fetch_items client settings kp)) as (entries & Hentries & Hlen);
    [done|].
  exists entries. by rewrite Hentries.
Qed.

(** ** The discovery endpoint *)

(** X21: the answer of a discovery endpoint.  Its status is 200, 500 or
    404; it is 404 exactly when service discovery is off, and 500
    exactly when [get_targets] raised or returned a list that cannot be
    rendered.  Only a 200 answer has a body and the refresh header: it
    carries the targets [get_targets] returned and the query's refresh
    interval; the others carry the empty list.  The manager is left as
    [get_targets] left it, also when the answer is 500. *)
Theorem handle_sd_answer (renders : list TargetGroup → bool) (env : DiscoveryEnv)
    (sd_manager : option Manager) (query : ServiceDiscoveryQuery) (now : Z) :
  let answer := _handle_sd renders env sd_manager query now in
  (status_code answer.2 = 200
   ∧ (∃ m, sd_manager = Some m
           ∧ get_targets env query now m = (default m answer.1, Ok (content answer.2))
           ∧ answer.1 = Some (get_targets env query now m).1)
   ∧ renders (content answer.2) = true
   ∧ headers answer.2 = [("X-Prometheus-Refresh-Interval-Seconds",
                          pretty (refresh_interval_seconds query))])
  ∨ (status_code answer.2 = 500
     ∧ (∃ m, sd_manager = Some m
             ∧ answer.1 = Some (get_targets env query now m).1
             ∧ ((∃ e, (get_targets env query now m).2 = Raise e)
                ∨ (∃ tgs, (get_targets env query now m).2 = Ok tgs
                          ∧ renders tgs = false)))
     ∧ content answer.2 = [] ∧ headers answer.2 = [])
  ∨ (status_code answer.2 = 404
     ∧ sd_manager = None ∧ answer.1 = None
     ∧ content answer.2 = [] ∧ headers answer.2 = []).
Proof.
  unfold _handle_sd. destruct sd_manager as [m|]; simpl; [|by right; right].
  destruct (get_targets env query now m) as [m' [tgs|e]] eqn:Hcall; simpl.
  - destruct (renders tgs) eqn:Hrenders; simpl.
    + left. split; [done|]. split; [|done]. exists m. by rewrite Hcall.
    + right; left. split; [done|]. split; [|done].
      exists m. rewrite Hcall. split; [done|]. split; [done|]. right. by exists tgs.
  - right; left. split; [done|]. split; [|done].
    exists m. rewrite Hcall. split; [done|]. split; [done|]. left. by exists e.
Qed.

(** ** Relationships and null leaves *)




(** X23: a null [value] leaf.  A path that ends on a mapping whose
    [value] is null yields the text of [None], not the missing marker,
    while the path that names the leaf itself ([part.value]) yields the
    missing marker. *)
Theorem null_value_leaf (d leaf : list (string * json)) (part : string) :
  has_char "."%char part = false →
  endswith_brackets part = false →
  od_get part d = Some (JDict leaf) →
  od_get "value" leaf = Some JNull →
  _extract_field (JDict d) part = Ok (Some "None")
  ∧ _extract_field (JDict d) (part +:+ ".value") = Ok None.
Proof.
  intros Hdot Hplain Hpart Hleaf. unfold _extract_field. split.
  - rewrite (split_on_no_sep _ _ Hdot). simpl. rewrite Hplain, Hpart. simpl.
    by rewrite Hleaf.
  - change (part +:+ ".value") with (part +:+ String "."%char "value").
    rewrite split_on_app, (split_on_no_sep _ _ Hdot). simpl.
    rewrite Hplain, Hpart. simpl. by rewrite Hleaf.
Qed.

End Exporter.

(** * The properties on the sample inputs *)

Open Scope list_scope.

(** C1, counterexample: the store holds a snapshot for [Device], the
    fetch fails, and after the cycle the entry list is empty: the
    snapshot is not preserved. *)
Lemma failed_fetch_drops_snapshot :
  od_get "Device" sample_store = Some [rtr1_entry]
  ∧ fetch_outcome failing_client sample_settings device_kind = FetchException
  ∧ _fetch_and_store sample_repr failing_client sample_settings device_kind sample_store
    = Ok [("Device", [])]
  ∧ od_get "Device"
      (poll_cycle sample_repr failing_client sample_settings [device_kind] sample_store)
    ≠ od_get "Device" sample_store.
Proof.
  split; [reflexivity|]. split; [reflexivity|]. split; [reflexivity|].
  intros H. vm_compute in H. discriminate H.
Qed.

Lemma failed_fetch_empties_kind_witness :
  (fetch_outcome failing_client duplicate_settings device_kind = SchemaNotFoundError
   ∨ fetch_outcome failing_client duplicate_settings device_kind = FetchException)
  ∧ _fetch_and_store sample_repr failing_client duplicate_settings device_kind
      sample_store
    = Ok (od_set "Device" [] sample_store)
  ∧ od_get "Device"
      (poll_cycle sample_repr failing_client duplicate_settings
         [device_by_role; device_kind; interface_kind] sample_store)
    = Some [].
Proof.
  assert (fetch_outcome failing_client duplicate_settings device_kind
          = SchemaNotFoundError
          ∨ fetch_outcome failing_client duplicate_settings device_kind
            = FetchException)
    as Hfail by (right; reflexivity).
  destruct (failed_fetch_empties_kind sample_repr failing_client duplicate_settings
              device_kind Hfail) as (Hstore & _ & Hcycle).
  split; [exact Hfail|]. split; [apply Hstore|].
  apply Hcycle.
  - apply list_elem_of_further, list_elem_of_here.
  - intros kp' _ _. right. unfold fetch_outcome.
    destruct (merge_filters (filters kp')); reflexivity.
Defined.

(** C2, counterexample: the file cannot be read at the first call; the
    call writes a cache entry, and a call thirty ticks later, when the
    file is readable and the query would return two targets, reads
    nothing and returns the cached empty list. *)
Lemma unreadable_file_writes_cache_entry :
  let call1 := get_targets sample_repr unreadable_env devices_query 100 fresh_manager in
  let call2 := get_targets sample_repr readable_env devices_query 130 call1.1 in
  name devices_query = Some "devices"
  ∧ call1.2 = Ok []
  ∧ cache call1.1 !! "devices" = Some {| timestamp := 100; targets := [] |}
  ∧ cache call1.1 !! "devices" ≠ None
  ∧ call2.2 = Ok []
  ∧ trace call2.1 = [ReadFile "queries/devices.gql"]
  ∧ (_fetch_and_transform sample_repr readable_env devices_query).2
    = Ok [device_target; interface_target].
Proof.
  cbv zeta. repeat split; try (vm_compute; reflexivity).
  vm_compute. discriminate.
Qed.

Lemma unreadable_file_result_is_cached_witness :
  let call1 := get_targets sample_repr unreadable_env devices_query 100 fresh_manager in
  call1.2 = Ok []
  ∧ cache call1.1 !! "devices" = Some {| timestamp := 100; targets := [] |}
  ∧ trace call1.1 = trace fresh_manager ++ [ReadFile (file_path devices_query)]
  ∧ ∀ env' now', now' - 100 < refresh_interval_seconds devices_query →
      get_targets sample_repr env' devices_query now' call1.1 = (call1.1, Ok []).
Proof.
  apply (unreadable_file_result_is_cached sample_repr unreadable_env devices_query
           "devices" 100 fresh_manager).
  - reflexivity.
  - discriminate.
  - reflexivity.
  - intros c Hc. simpl in Hc. rewrite lookup_empty in Hc. discriminate Hc.
Defined.

(** C3, counterexample: [Device] is configured twice, with different
    included fields, and the store holds the list written by the second
    spec's task.  [collect] renders the kind with the first spec's
    fields, the callback of the second spec's instrument with its own:
    the pairs differ. *)
Lemma pull_push_differ_on_duplicate_kind :
  device_by_role ∈ metrics_kind duplicate_settings
  ∧ family_pairs <$> collect sample_lower duplicate_settings [("Device", [edge_entry])]
    = [[([("id", "2"); ("hfid", "Device(rtr2)"); ("name", ""); ("site", "")], 1)]]
  ∧ observation_pairs <$> _otlp_callback device_by_role [("Device", [edge_entry])]
    = Ok [([("id", "2"); ("hfid", "Device(rtr2)"); ("role", "edge")], 1)]
  ∧ labelnames <$> collect sample_lower duplicate_settings [("Device", [edge_entry])]
    ≠ [label_order device_by_role].
Proof.
  split; [apply list_elem_of_further, list_elem_of_here|].
  split; [vm_compute; reflexivity|].
  split; [vm_compute; reflexivity|].
  vm_compute. discriminate.
Qed.

(** Before the first cycle has written a kind, the push callback raises
    where [collect] renders nothing. *)
Example push_before_first_poll_raises :
  _otlp_callback device_kind [] = Raise KeyError
  ∧ collect sample_lower sample_settings [] = [].
Proof. split; reflexivity. Qed.

Lemma pull_push_same_pairs_witness :
  od_get (kind device_with_filter) sample_store = Some [rtr1_entry]
  ∧ find_kind filtered_settings (kind device_with_filter) = Some device_kind
  ∧ device_with_filter ≠ device_kind
  ∧ include device_kind = include device_with_filter
  ∧ ∃ fam obs,
      collect_kind sample_lower filtered_settings (kind device_with_filter, [rtr1_entry])
      = Some fam
      ∧ fam ∈ collect sample_lower filtered_settings sample_store
      ∧ _otlp_callback device_with_filter sample_store = Ok obs
      ∧ labelnames fam = "id" :: "hfid" :: include device_with_filter
      ∧ length (samples fam) = length [rtr1_entry]
      ∧ family_pairs fam = observation_pairs obs.
Proof.
  split; [reflexivity|]. split; [reflexivity|]. split; [discriminate|].
  split; [reflexivity|].
  apply (pull_push_same_pairs sample_lower filtered_settings sample_store
           device_with_filter device_kind [rtr1_entry]); reflexivity.
Defined.

(** The scenario of the specification: the entry of [rtr1]. *)
Example rtr1_yields_its_entry :
  entry_for_item sample_repr device_kind rtr1 = Ok rtr1_entry.
Proof. vm_compute. reflexivity. Qed.

Lemma entry_label_set_witness :
  entry_for_item sample_repr device_kind rtr1 = Ok rtr1_entry
  ∧ dom (labels rtr1_entry) = {["id"; "hfid"]} ∪ list_to_set (include device_kind)
  ∧ labels rtr1_entry !! "site" = Some ""
  ∧ value rtr1_entry = 1.
Proof.
  assert (entry_for_item sample_repr device_kind rtr1 = Ok rtr1_entry) as He
    by (vm_compute; reflexivity).
  destruct (entry_label_set sample_repr device_kind rtr1 rtr1_entry He)
    as (Hdom & _ & _ & Hun & _ & _ & Hval).
  split; [exact He|]. split; [exact Hdom|]. split; [|exact Hval].
  apply Hun; [|reflexivity].
  apply list_elem_of_further, list_elem_of_here.
Defined.

(** C6, counterexample: two calls thirty ticks apart, within the
    refresh interval of sixty, on a fresh manager.  When the
    transformation of the response raises, nothing is cached and the
    second call executes the query again: two executions.  When the
    query file cannot be read, no query is executed at all.  And on a
    manager that already holds a fresh entry, neither call executes
    anything. *)
Lemma window_without_single_execution :
  let raise1 := get_targets sample_repr broken_env devices_query 100 fresh_manager in
  let raise2 := get_targets sample_repr broken_env devices_query 130 raise1.1 in
  let unread1 := get_targets sample_repr unreadable_env devices_query 100 fresh_manager in
  let unread2 := get_targets sample_repr unreadable_env devices_query 130 unread1.1 in
  let warm := (get_targets sample_repr readable_env devices_query 90 fresh_manager).1 in
  let warm1 := get_targets sample_repr readable_env devices_query 100 warm in
  let warm2 := get_targets sample_repr readable_env devices_query 130 warm1.1 in
  name devices_query = Some "devices"
  ∧ 130 - 100 < refresh_interval_seconds devices_query
  ∧ executions (trace fresh_manager) = 0%nat
  ∧ executions (trace raise2.1) = 2%nat
  ∧ executions (trace unread2.1) = 0%nat
  ∧ executions (trace warm2.1) = executions (trace warm).
Proof.
  cbv zeta. repeat split; vm_compute; reflexivity.
Qed.

Lemma ttl_window_single_execution_witness :
  let call1 := get_targets sample_repr readable_env devices_query 100 fresh_manager in
  let call2 := get_targets sample_repr unreadable_env devices_query 159 call1.1 in
  let call3 := get_targets sample_repr readable_env devices_query 160 call2.1 in
  call1.2 = Ok [device_target; interface_target]
  ∧ call2.2 = Ok [device_target; interface_target]
  ∧ executions (trace call2.1) = 1%nat
  ∧ executions (trace call3.1) = 2%nat
  ∧ cache call3.1 !! "devices"
    = Some {| timestamp := 160; targets := [device_target; interface_target] |}.
Proof.
  destruct (ttl_window_single_execution sample_repr
              readable_env unreadable_env readable_env devices_query "devices"
              100 159 160 fresh_manager
              "query { Device { edges { node { id } } } }"
              "query { Device { edges { node { id } } } }"
              [device_target; interface_target] [device_target; interface_target])
    as (H1 & H2 & _ & H4 & _ & _ & H7 & H8).
  - reflexivity.
  - discriminate.
  - intros c Hc. simpl in Hc. rewrite lookup_empty in Hc. discriminate Hc.
  - reflexivity.
  - vm_compute. reflexivity.
  - reflexivity.
  - discriminate.
  - reflexivity.
  - vm_compute. reflexivity.
  - cbv zeta. split; [exact H1|]. split; [exact H2|]. split; [exact H4|].
    split; [|exact H8]. rewrite H7, H4. reflexivity.
Defined.

(** The two path examples of the specification. *)
Example extract_value_leaf :
  _extract_field sample_repr (JDict [("ip", JDict [("value", JStr "10.0.0.1")])]) "ip"
  = Ok (Some "10.0.0.1").
Proof. reflexivity. Qed.

Example extract_two_edges :
  _extract_field sample_repr (JDict two_edges) "a[]" = Ok (Some "x,y")
  ∧ _extract_field sample_repr (JDict two_edges) "a[].b" = Ok (Some "x,y").
Proof. split; reflexivity. Qed.

Example array_segment_collects_two_edges :
  connection_well_shaped (od_get "a" two_edges) = true
  ∧ walk sample_repr [("a" +:+ "[]")%string] (JDict two_edges) = Ok (Some "x,y").
Proof.
  split; [reflexivity|].
  exact (array_segment_collects sample_repr two_edges "a" [] eq_refl).
Defined.

Lemma meta_labels_injected_last_witness :
  (_fetch_and_transform sample_repr readable_env devices_query).2
  = Ok [device_target; interface_target]
  ∧ device_target ∈ [device_target; interface_target]
  ∧ ∃ content resp kind_name edge nd,
      read_text readable_env (file_path devices_query) = Some content
      ∧ execute_graphql readable_env content = Some resp
      ∧ edge_of_kind resp kind_name edge
      ∧ target_for_edge sample_repr devices_query kind_name edge = Ok (Some device_target)
      ∧ py_get edge "node" (JDict []) = Ok (JDict nd)
      ∧ od_get "__meta_infrahub_id" (tg_labels device_target)
        = Some (default JNull (od_get "id" nd))
      ∧ (od_get "id" nd = None →
         od_get "__meta_infrahub_id" (tg_labels device_target) = Some JNull)
      ∧ od_get "__meta_infrahub_kind" (tg_labels device_target) = Some (JStr kind_name).
Proof.
  assert ((_fetch_and_transform sample_repr readable_env devices_query).2
          = Ok [device_target; interface_target]) as Hfetch by (vm_compute; reflexivity).
  assert (device_target ∈ [device_target; interface_target]) as Hin
    by apply list_elem_of_here.
  split; [exact Hfetch|]. split; [exact Hin|].
  exact (meta_labels_injected_last sample_repr readable_env devices_query
           [device_target; interface_target] device_target Hfetch Hin).
Defined.

(** * The further properties on the sample inputs *)

Lemma derive_name_is_file_stem_witness :
  derive_name "queries/devices.gql" = "devices"
  ∧ derive_name "devices.gql" = "devices".
Proof.
  exact (derive_name_is_file_stem "queries" "devices" "gql" eq_refl eq_refl eq_refl).
Defined.

Lemma unnamed_query_is_never_fetched_witness :
  name hidden_query = Some ""
  ∧ get_targets sample_repr readable_env hidden_query 100 fresh_manager
    = (fresh_manager, Ok []).
Proof.
  split; [reflexivity|].
  exact (proj1 (unnamed_query_is_never_fetched sample_repr readable_env
                  "queries" "devices.gql" "ip" 60 [] None 100 fresh_manager eq_refl)).
Defined.

Lemma failed_query_is_cached_as_empty_witness :
  let call := get_targets sample_repr rejecting_env devices_query 100 fresh_manager in
  call.2 = Ok []
  ∧ cache call.1 !! "devices" = Some {| timestamp := 100; targets := [] |}
  ∧ executions (trace call.1) = S (executions (trace fresh_manager))
  ∧ ∀ env' now', now' - 100 < refresh_interval_seconds devices_query →
      get_targets sample_repr env' devices_query now' call.1 = (call.1, Ok []).
Proof.
  apply (failed_query_is_cached_as_empty sample_repr rejecting_env devices_query
           "devices" "query { Device { edges { node { id } } } }" 100 fresh_manager).
  - reflexivity.
  - discriminate.
  - reflexivity.
  - right. eexists. split; reflexivity.
  - intros c Hc. simpl in Hc. rewrite lookup_empty in Hc. discriminate Hc.
Defined.

Lemma raising_fetch_is_not_cached_witness :
  let call := get_targets sample_repr broken_env devices_query 100 fresh_manager in
  (_fetch_and_transform sample_repr broken_env devices_query).2 = Raise AttributeError
  ∧ call.2 = Raise AttributeError
  ∧ cache call.1 = cache fresh_manager.
Proof.
  assert ((_fetch_and_transform sample_repr broken_env devices_query).2
          = Raise AttributeError) as Hraise by reflexivity.
  destruct (raising_fetch_is_not_cached sample_repr broken_env devices_query
              "devices" 100 fresh_manager AttributeError) as (Hres & Hcache & _).
  - reflexivity.
  - discriminate.
  - intros c Hc. simpl in Hc. rewrite lookup_empty in Hc. discriminate Hc.
  - exact Hraise.
  - cbv zeta. split; [exact Hraise|]. split; [exact Hres|exact Hcache].
Defined.

Lemma get_targets_keeps_other_entries_witness :
  name devices_query ≠ Some "sites"
  ∧ cache (get_targets sample_repr readable_env devices_query 100 fresh_manager).1
      !! "sites"
    = cache fresh_manager !! "sites".
Proof.
  assert (name devices_query ≠ Some "sites") as Hother by discriminate.
  split; [exact Hother|].
  exact (get_targets_keeps_other_entries sample_repr readable_env devices_query 100
           fresh_manager "sites" Hother).
Defined.

Lemma same_name_queries_share_the_entry_witness :
  name devices_query = name devices_by_name_query
  ∧ target_field devices_query ≠ target_field devices_by_name_query
  ∧ get_targets sample_repr unreadable_env devices_by_name_query 120
      (get_targets sample_repr readable_env devices_query 100 fresh_manager).1
    = ((get_targets sample_repr readable_env devices_query 100 fresh_manager).1,
       Ok [device_target; interface_target]).
Proof.
  split; [reflexivity|]. split; [discriminate|].
  apply (same_name_queries_share_the_entry sample_repr readable_env unreadable_env
           devices_query devices_by_name_query "devices" 100 120 fresh_manager
           [device_target; interface_target]).
  - reflexivity.
  - reflexivity.
  - discriminate.
  - intros c Hc. simpl in Hc. rewrite lookup_empty in Hc. discriminate Hc.
  - vm_compute. reflexivity.
  - reflexivity.
Defined.

Lemma edge_without_node_mapping_witness :
  py_get null_node_edge "node" (JDict []) = Ok JNull
  ∧ target_for_edge sample_repr devices_query "Device" null_node_edge = Ok None.
Proof.
  split; [reflexivity|].
  apply (edge_without_node_mapping sample_repr devices_query "Device"
           null_node_edge JNull).
  - reflexivity.
  - discriminate.
Defined.

Lemma emitted_group_has_one_target_witness :
  target_for_edge sample_repr devices_query "Interface" interface_edge
  = Ok (Some interface_target)
  ∧ ∃ node addr,
      py_get interface_edge "node" (JDict []) = Ok node
      ∧ _extract_field sample_repr node (target_field devices_query) = Ok (Some addr)
      ∧ addr ≠ ""
      ∧ ((tg_targets interface_target = [addr]
          ∧ (truthy_str (port_field devices_query) = false
             ∨ ∃ port,
                 _extract_field sample_repr node (default "" (port_field devices_query))
                 = Ok port
                 ∧ truthy_str port = false))
         ∨ (∃ pf port,
              port_field devices_query = Some pf ∧ pf ≠ ""
              ∧ _extract_field sample_repr node pf = Ok (Some port) ∧ port ≠ ""
              ∧ tg_targets interface_target = [addr +:+ ":" +:+ port])).
Proof.
  assert (target_for_edge sample_repr devices_query "Interface" interface_edge
          = Ok (Some interface_target)) as Hedge by (vm_compute; reflexivity).
  split; [exact Hedge|].
  exact (emitted_group_has_one_target sample_repr devices_query "Interface"
           interface_edge interface_target Hedge).
Defined.

Lemma emitted_group_labels_witness :
  target_for_edge sample_repr site_query "Device" sited_edge = Ok (Some sited_target)
  ∧ od_get "site" (tg_labels sited_target) = Some (JStr "ams")
  ∧ od_get "rack" (tg_labels sited_target) = None
  ∧ (∀ k, od_mem k (tg_labels sited_target) = true →
       k = "__meta_infrahub_id" ∨ k = "__meta_infrahub_kind"
       ∨ k ∈ (label_mappings site_query).*1).
Proof.
  assert (target_for_edge sample_repr site_query "Device" sited_edge
          = Ok (Some sited_target)) as Hedge by (vm_compute; reflexivity).
  assert (NoDup (label_mappings site_query).*1) as Hnodup.
  { simpl. apply NoDup_cons. split; [|apply NoDup_singleton].
    intros H. apply list_elem_of_singleton in H. discriminate H. }
  destruct (emitted_group_labels sample_repr site_query "Device" sited_edge
              sited_target Hedge Hnodup) as [_ Hkeys].
  split; [exact Hedge|]. split; [reflexivity|]. split; [reflexivity|exact Hkeys].
Defined.

Lemma response_without_data_key_witness :
  transform sample_repr site_query bare_response = Ok [sited_target]
  ∧ transform sample_repr site_query bare_response
    = transform sample_repr site_query [("data", JDict bare_response)].
Proof.
  split; [vm_compute; reflexivity|].
  exact (response_without_data_key sample_repr site_query bare_response
           eq_refl eq_refl).
Defined.

Lemma plain_path_extraction_witness :
  node_entries_are_mappings (split_on "."%char "site.name") sited_node = true
  ∧ _extract_field sample_repr sited_node "site.name" = Ok (Some "ams").
Proof.
  split; [reflexivity|].
  apply (plain_path_extraction sample_repr sited_node "site.name").
  - simpl. repeat constructor.
  - reflexivity.
Defined.

Lemma array_path_extraction_witness :
  connection_well_shaped (od_get "tags" mixed_list) = true
  ∧ _extract_field sample_repr (JDict mixed_list) "tags[]" = Ok (Some "a,1,v,True")
  ∧ connection_well_shaped (od_get "a" two_edges) = true
  ∧ _extract_field sample_repr (JDict two_edges) "a[]" = Ok (Some "x,y").
Proof.
  split; [reflexivity|].
  split; [exact (array_path_extraction sample_repr mixed_list "tags" eq_refl eq_refl)|].
  split; [reflexivity|].
  exact (array_path_extraction sample_repr two_edges "a" eq_refl eq_refl).
Defined.

Lemma collect_families_are_well_formed_witness :
  collect sample_lower sample_settings sample_store = [device_family]
  ∧ ∃ k entries kp,
      (k, entries) ∈ sample_store
      ∧ find_kind sample_settings k = Some kp
      ∧ kp ∈ metrics_kind sample_settings ∧ kind kp = k
      ∧ family_name device_family = "infrahub_" +:+ sample_lower k +:+ "_info"
      ∧ labelnames device_family = "id" :: "hfid" :: include kp
      ∧ length (samples device_family) = length entries
      ∧ Forall (fun s => length s.1 = length (labelnames device_family))
          (samples device_family).
Proof.
  assert (collect sample_lower sample_settings sample_store = [device_family])
    as Hcollect by (vm_compute; reflexivity).
  split; [exact Hcollect|].
  apply (collect_families_are_well_formed sample_lower sample_settings sample_store).
  rewrite Hcollect. apply list_elem_of_here.
Defined.

Lemma failed_fetch_renders_empty_family_witness :
  device_kind ∈ metrics_kind sample_settings
  ∧ ∃ store' fam,
      _fetch_and_store sample_repr failing_client sample_settings device_kind sample_store
      = Ok store'
      ∧ fam ∈ collect sample_lower sample_settings store'
      ∧ family_name fam = "infrahub_" +:+ sample_lower (kind device_kind) +:+ "_info"
      ∧ samples fam = [].
Proof.
  assert (device_kind ∈ metrics_kind sample_settings) as Hin
    by apply list_elem_of_here.
  split; [exact Hin|].
  apply (failed_fetch_renders_empty_family sample_repr sample_lower failing_client
           sample_settings device_kind sample_store Hin).
  right. reflexivity.
Defined.

Lemma otlp_observations_follow_the_entries_witness :
  _otlp_callback device_kind sample_store = Ok [rtr1_observation]
  ∧ ∃ entries,
      od_get (kind device_kind) sample_store = Some entries
      ∧ Forall2
          (fun entry o =>
             obs_value o = value entry
             ∧ ∀ l, od_get l (attributes o)
                    = if bool_decide (l ∈ "id" :: "hfid" :: include device_kind)
                      then Some (default "" (labels entry !! l)) else None)
          entries [rtr1_observation].
Proof.
  assert (_otlp_callback device_kind sample_store = Ok [rtr1_observation]) as Hobs
    by (vm_compute; reflexivity).
  split; [exact Hobs|].
  exact (otlp_observations_follow_the_entries device_kind sample_store
           [rtr1_observation] Hobs).
Defined.

Lemma fetch_and_store_replaces_one_kind_witness :
  _fetch_and_store sample_repr one_item_client sample_settings device_kind two_kind_store
  = Ok refreshed_store
  ∧ ∃ entries,
      od_get (kind device_kind) refreshed_store = Some entries
      ∧ Forall2 (fun itm entry => entry_for_item sample_repr device_kind itm = Ok entry)
          (fetch_items one_item_client sample_settings device_kind) entries
      ∧ (∀ k, k ≠ kind device_kind →
           od_get k refreshed_store = od_get k two_kind_store)
      ∧ od_keys refreshed_store
        = if od_mem (kind device_kind) two_kind_store
          then od_keys two_kind_store
          else od_keys two_kind_store ++ [kind device_kind].
Proof.
  assert (_fetch_and_store sample_repr one_item_client sample_settings device_kind
            two_kind_store = Ok refreshed_store) as Hstore
    by (vm_compute; reflexivity).
  split; [exact Hstore|].
  exact (fetch_and_store_replaces_one_kind sample_repr one_item_client sample_settings
           device_kind _ _ Hstore).
Defined.

Lemma one_failing_item_discards_the_update_witness :
  entry_for_item sample_repr device_kind rtr1 = Ok rtr1_entry
  ∧ entry_for_item sample_repr device_kind rtr2 = Raise FetchFailed
  ∧ (∃ e', _fetch_and_store sample_repr two_item_client sample_settings device_kind
             sample_store = Raise e')
  ∧ poll_cycle sample_repr two_item_client sample_settings [device_kind] sample_store
    = sample_store.
Proof.
  assert (entry_for_item sample_repr device_kind rtr2 = Raise FetchFailed) as Hraise
    by (vm_compute; reflexivity).
  split; [vm_compute; reflexivity|]. split; [exact Hraise|].
  apply (one_failing_item_discards_the_update sample_repr two_item_client
           sample_settings device_kind sample_store [rtr1; rtr2] rtr2 FetchFailed).
  - reflexivity.
  - apply list_elem_of_further, list_elem_of_here.
  - exact Hraise.
Defined.

Lemma poll_cycle_order_is_irrelevant_witness :
  [device_kind; interface_kind] ≡ₚ [interface_kind; device_kind]
  ∧ od_get "Device"
      (poll_cycle sample_repr one_item_client sample_settings
         [device_kind; interface_kind] [])
    = od_get "Device"
        (poll_cycle sample_repr one_item_client sample_settings
           [interface_kind; device_kind] []).
Proof.
  assert ([device_kind; interface_kind] ≡ₚ [interface_kind; device_kind]) as Hperm
    by apply perm_swap.
  split; [exact Hperm|].
  apply (poll_cycle_order_is_irrelevant sample_repr one_item_client sample_settings
           _ _ [] "Device" Hperm).
  simpl. apply NoDup_cons. split; [|apply NoDup_singleton].
  intros H. apply list_elem_of_singleton in H. discriminate H.
Defined.

Lemma merge_filters_last_wins_witness :
  od_get "role__value"
    (merge_filters ([[("role__value", "edge")]]
                    ++ [[("role__value", "core"); ("site__name", "ams")]]))
  = Some "core".
Proof.
  apply (merge_filters_last_wins [[("role__value", "edge")]]
           [("role__value", "core"); ("site__name", "ams")] "role__value").
  - simpl. apply NoDup_cons. split; [|apply NoDup_singleton].
    intros H. apply list_elem_of_singleton in H. discriminate H.
  - apply list_elem_of_here.
Defined.

Lemma unloaded_relationships_never_raise_witness :
  ∃ entries,
    _fetch_and_store sample_repr one_item_client sample_settings device_kind sample_store
    = Ok (od_set (kind device_kind) entries sample_store)
    ∧ length entries = length (fetch_items one_item_client sample_settings device_kind).
Proof.
  apply (unloaded_relationships_never_raise sample_repr one_item_client sample_settings
           device_kind sample_store).
  intros itm field Hitm Hfield.
  apply list_elem_of_singleton in Hitm. subst itm.
  apply elem_of_cons in Hfield as [->|Hfield].
  - right. eexists. reflexivity.
  - apply list_elem_of_singleton in Hfield. subst field. left. reflexivity.
Defined.


Lemma null_value_leaf_witness :
  _extract_field sample_repr (JDict [("ip", JDict [("value", JNull)])]) "ip"
  = Ok (Some "None")
  ∧ _extract_field sample_repr (JDict [("ip", JDict [("value", JNull)])]) "ip.value"
    = Ok None.
Proof.
  exact (null_value_leaf sample_repr [("ip", JDict [("value", JNull)])]
           [("value", JNull)] "ip" eq_refl eq_refl eq_refl eq_refl).
Defined.
